(** * Greenhouse controller: [DataManager] (src/data_manager.py)

    A shallow embedding of the rule table [SENSOR_ACTIONS], of the rule
    evaluation done by [process_sensor_data], of the command path
    [send_control_message] and of the database thread [_db_thread_func],
    followed by the properties of the specification that concern them. *)

From Stdlib Require Import QArith Ascii String.
From stdpp Require Import gmap strings list sorting.

Local Open Scope string_scope.
Local Open Scope list_scope.

(** ** Python numbers

    A JSON reading carries Python [int]s and [float]s.  Python compares the
    two by exact numerical value, so a finite number is a rational; the
    float-only values [inf], [-inf] and [nan] (which [json.loads] accepts)
    are kept apart. *)

Inductive number :=
| Finite (q : Q)
| PosInf
| NegInf
| NaN.

Definition Qltb (a b : Q) : bool := negb (Qle_bool b a).

(** [a > b] *)
Definition num_gt (a b : number) : bool :=
  match a, b with
  | NaN, _ | _, NaN => false
  | PosInf, PosInf => false
  | PosInf, _ => true
  | _, PosInf => false
  | NegInf, _ => false
  | Finite _, NegInf => true
  | Finite x, Finite y => Qltb y x
  end.

(** [a < b] *)
Definition num_lt (a b : number) : bool := num_gt b a.

(** [a == b] *)
Definition num_eq (a b : number) : bool :=
  match a, b with
  | Finite x, Finite y => Qeq_bool x y
  | PosInf, PosInf | NegInf, NegInf => true
  | _, _ => false
  end.

(** ** [json.dumps] on a dict of strings

    Default arguments: [ensure_ascii=True], separators [", "] and [": "].
    A character of a [str] is a code point; the embedding covers the code
    points below 256, one [ascii] each. *)

Definition dquote : ascii := "034"%char.
Definition backslash : ascii := "\"%char.

Definition hex_digit (n : N) : ascii :=
  match n with
  | 0 => "0" | 1 => "1" | 2 => "2" | 3 => "3" | 4 => "4" | 5 => "5"
  | 6 => "6" | 7 => "7" | 8 => "8" | 9 => "9" | 10 => "a" | 11 => "b"
  | 12 => "c" | 13 => "d" | 14 => "e" | _ => "f"
  end%N%char.

(** What [json.encoder.py_encode_basestring_ascii] writes for one character:
    everything outside [' '..'~'], the double quote and the backslash are
    escaped. *)
Definition json_escape_char (c : ascii) : string :=
  let n := N_of_ascii c in
  if Ascii.eqb c dquote then String backslash (String dquote EmptyString)
  else if Ascii.eqb c backslash then String backslash (String backslash EmptyString)
  else if (n =? 10)%N then "\n"
  else if (n =? 13)%N then "\r"
  else if (n =? 9)%N then "\t"
  else if (n =? 12)%N then "\f"
  else if (n =? 8)%N then "\b"
  else if ((32 <=? n) && (n <=? 126))%N then String c EmptyString
  else "\u00" +:+ String (hex_digit (n / 16)) (String (hex_digit (n mod 16)) EmptyString).

Fixpoint json_escape (s : string) : string :=
  match s with
  | EmptyString => EmptyString
  | String c s' => json_escape_char c +:+ json_escape s'
  end.

Definition json_str (s : string) : string :=
  String dquote (json_escape s) +:+ String dquote EmptyString.

Fixpoint json_items (kvs : list (string * string)) : string :=
  match kvs with
  | [] => EmptyString
  | [(k, v)] => json_str k +:+ ": " +:+ json_str v
  | (k, v) :: rest => json_str k +:+ ": " +:+ json_str v +:+ ", " +:+ json_items rest
  end.

Definition json_dumps (kvs : list (string * string)) : string :=
  "{" +:+ json_items kvs +:+ "}".

(** ** The rule table *)

Record Action := {
  device : string;
  state : string;
  topic : string
}.

Record DataKeyInfo := {
  data_key : string;
  threshold : number;
  above_action : option Action;
  below_action : option Action
}.

Record SensorInfo := {
  data_topic : string;
  control_topic : string;
  data_keys : list DataKeyInfo
}.

(** The value under the key ["device_control_topics"]: a dict with exactly
    these four keys. *)
Record DeviceControlTopics := {
  fan : string;
  dehumidifier : string;
  light : string;
  irrigation_system : string
}.

(** The values of [SENSOR_ACTIONS] have one of two shapes. *)
Inductive Entry :=
| SensorEntry (s : SensorInfo)
| DeviceEntry (d : DeviceControlTopics).

(** [sensor_info.get('data_topic')], [sensor_info.get('control_topic')] and
    [sensor_info.get('data_keys', [])]: the device dict has none of these
    keys, so [get] answers [None], or the default. *)
Definition get_data_topic (e : Entry) : option string :=
  match e with
  | SensorEntry s => Some (data_topic s)
  | DeviceEntry _ => None
  end.

Definition get_control_topic (e : Entry) : option string :=
  match e with
  | SensorEntry s => Some (control_topic s)
  | DeviceEntry _ => None
  end.

Definition get_data_keys (e : Entry) : list DataKeyInfo :=
  match e with
  | SensorEntry s => data_keys s
  | DeviceEntry _ => []
  end.

Definition num (z : Z) : number := Finite (inject_Z z).

(** A dict literal in insertion order, which is the order Python iterates it
    in. *)
Definition SENSOR_ACTIONS : list (string * Entry) := [
  ("dht", SensorEntry {|
     data_topic := "/RG_7557_GreenHouse/Sensors/DHT/Data";
     control_topic := "/RG_7557_GreenHouse/Sensors/DHT/Control";
     data_keys := [
       {| data_key := "Temperature";
          threshold := num 28;
          above_action := Some {|
            device := "fan";
            state := "ON";
            topic := "/RG_7557_GreenHouse/Devices/Fan/Control" |};
          below_action := None |};
       {| data_key := "Humidity";
          threshold := num 60;
          above_action := Some {|
            device := "dehumidifier";
            state := "ON";
            topic := "/RG_7557_GreenHouse/Devices/Dehumidifier/Control" |};
          below_action := None |}
     ] |});
  ("light", SensorEntry {|
     data_topic := "/RG_7557_GreenHouse/Sensors/Light/Data";
     control_topic := "/RG_7557_GreenHouse/Sensors/Light/Control";
     data_keys := [
       {| data_key := "Light";
          threshold := num 450;
          above_action := None;
          below_action := Some {|
            device := "light";
            state := "ON";
            topic := "/RG_7557_GreenHouse/Devices/Light/Control" |} |}
     ] |});
  ("moisture", SensorEntry {|
     data_topic := "/RG_7557_GreenHouse/Sensors/Moisture/Data";
     control_topic := "/RG_7557_GreenHouse/Sensors/Moisture/Control";
     data_keys := [
       {| data_key := "Moisture";
          threshold := num 30;
          above_action := None;
          below_action := Some {|
            device := "irrigation_system";
            state := "ON";
            topic := "/RG_7557_GreenHouse/Devices/IrrigationSystem/Control" |} |}
     ] |});
  ("device_control_topics", DeviceEntry {|
     fan := "/RG_7557_GreenHouse/Devices/Fan/Control";
     dehumidifier := "/RG_7557_GreenHouse/Devices/Dehumidifier/Control";
     light := "/RG_7557_GreenHouse/Devices/Light/Control";
     irrigation_system := "/RG_7557_GreenHouse/Devices/IrrigationSystem/Control" |})
].

(** [d.get(key)] on a dict kept as an association list. *)
Fixpoint dict_get {V} (d : list (string * V)) (key : string) : option V :=
  match d with
  | [] => None
  | (k, v) :: rest => if String.eqb k key then Some v else dict_get rest key
  end.

Fixpoint dict_get_nat {V} (d : list (nat * V)) (key : nat) : option V :=
  match d with
  | [] => None
  | (k, v) :: rest => if Nat.eqb k key then Some v else dict_get_nat rest key
  end.

(** ** Effects

    What a call does to the outside world is a list of events: the lines it
    prints and the messages it hands to the MQTT client.  A call either
    returns or raises; the events emitted before an exception stay. *)

Inductive Exn :=
| AttributeError (msg : string)
| OperationalError (msg : string).

Inductive Event :=
| Print (line : string)
| Publish (to message : string).

Definition IO (A : Type) : Type := list Event → list Event * (Exn + A).

Definition io_ret {A} (a : A) : IO A := λ w, (w, inr a).

Definition io_bind {A B} (k : A → IO B) (m : IO A) : IO B :=
  λ w, match m w with
       | (w', inl e) => (w', inl e)
       | (w', inr a) => k a w'
       end.

#[export] Instance IO_ret : MRet IO := @io_ret.
#[export] Instance IO_bind : MBind IO := @io_bind.

Definition raise {A} (e : Exn) : IO A := λ w, (w, inl e).
Definition emit (ev : Event) : IO unit := λ w, (w ++ [ev], inr tt).
Definition print (line : string) : IO unit := emit (Print line).

(** [for x in l: s = body(s, x)] *)
Fixpoint for_each {A S} (body : S → A → IO S) (l : list A) (s : S) : IO S :=
  match l with
  | [] => mret s
  | x :: l' => s' ← body s x; for_each body l' s'
  end.

(** The events of a run that are publications, as (topic, payload) pairs. *)
Definition published (w : list Event) : list (string * string) :=
  omap (λ ev, match ev with Publish to message => Some (to, message) | Print _ => None end) w.

(** ** The message store

    The table [messages] of one database, its rows in ascending [id], which
    is the order [SELECT * FROM messages] scans them in.  [None] is a
    database in which the table was never created. *)

Record Row := {
  row_id : Z;
  row_topic : string;
  row_payload : string;
  row_timestamp : string
}.

Definition Database : Type := option (list Row).

(** What SQLite itself decides: whether the [n]-th statement run on a
    connection fails (disk full, database locked, ...), the value of
    [CURRENT_TIMESTAMP] at that statement, and the [id] it draws at random
    for a new row when the largest [id] is taken ([None] when it finds
    none). *)
Record SqliteEnv := {
  fault : nat → option string;
  current_timestamp : nat → string;
  random_rowid : nat → option Z
}.

Record Connection := {
  messages : Database;
  statements : nat
}.

(** [db_path]: the special name [":memory:"] or the name of a file. *)
Inductive DbPath :=
| InMemory
| OnDisk (file : string).

(** The names for which every connection gets a database of its own:
    [":memory:"], and the empty name, which stands for a temporary
    database. *)
Definition is_private (path : DbPath) : bool :=
  match path with
  | InMemory => true
  | OnDisk file => String.eqb file EmptyString || String.eqb file ":memory:"
  end.

(** The database files, each with its table [messages] when it has one. *)
Definition Disk : Type := gmap string (list Row).

(** [sqlite3.connect(db_path)]: every connection to [":memory:"] or to the
    empty name opens a private, empty database of its own; connections to a
    file share the file. *)
Definition sqlite3_connect (disk : Disk) (path : DbPath) : Connection :=
  match path with
  | InMemory => {| messages := None; statements := 0 |}
  | OnDisk file =>
      {| messages := if is_private (OnDisk file) then None else disk !! file;
         statements := 0 |}
  end.

(** [CREATE TABLE IF NOT EXISTS messages (...)] *)
Definition create_table_if_not_exists (db : Database) : Database :=
  match db with
  | None => Some []
  | Some rows => Some rows
  end.

(** One more than the largest [id] in the table, 1 in an empty table. *)
Definition next_rowid (rows : list Row) : Z :=
  match rows with
  | [] => 1
  | r :: rest => foldl (λ m r', Z.max m (row_id r')) (row_id r) rest + 1
  end.

(** The largest [id] a row can have: 2^63 - 1. *)
Definition max_rowid : Z := 9223372036854775807.

(** A row put at its place in a table kept in ascending [id]. *)
Fixpoint insert_by_id (row : Row) (rows : list Row) : list Row :=
  match rows with
  | [] => [row]
  | r :: rest =>
      if (row_id row <? row_id r)%Z then row :: r :: rest
      else r :: insert_by_id row rest
  end.

(** [id INTEGER PRIMARY KEY]: the new row gets [next_rowid] and comes last;
    once the largest [id] is [max_rowid], SQLite draws positive [id]s at
    random (up to 2^62) until one is unused, and gives up with "database or
    disk is full" when it finds none; the row then stands where its [id]
    puts it. *)
Definition insert_row (env : SqliteEnv) (n : nat) (rows : list Row)
    (topic payload : string) : option (list Row) :=
  if (next_rowid rows <=? max_rowid)%Z then
    Some (rows ++ [{| row_id := next_rowid rows;
                      row_topic := topic;
                      row_payload := payload;
                      row_timestamp := current_timestamp env n |}])
  else
    match random_rowid env n with
    | Some id =>
        if (1 <=? id)%Z && (id <=? 4611686018427387904)%Z
           && forallb (λ r, negb (row_id r =? id)%Z) rows
        then Some (insert_by_id {| row_id := id;
                                   row_topic := topic;
                                   row_payload := payload;
                                   row_timestamp := current_timestamp env n |} rows)
        else None
    | None => None
    end.

(** [with conn: conn.execute("INSERT INTO messages (topic, payload) VALUES
    (?, ?)", (topic, payload))] *)
Definition execute_insert (env : SqliteEnv) (c : Connection)
    (topic payload : string) : Exn + Connection :=
  match fault env (statements c) with
  | Some msg => inl (OperationalError msg)
  | None =>
      match messages c with
      | None => inl (OperationalError "no such table: messages")
      | Some rows =>
          match insert_row env (statements c) rows topic payload with
          | None => inl (OperationalError "database or disk is full")
          | Some rows' =>
              inr {| messages := Some rows'; statements := S (statements c) |}
          end
      end
  end.

(** [with conn: cursor = conn.execute("SELECT * FROM messages")] followed by
    [cursor.fetchall()] *)
Definition execute_select (env : SqliteEnv) (c : Connection)
    : Exn + (Connection * list Row) :=
  match fault env (statements c) with
  | Some msg => inl (OperationalError msg)
  | None =>
      match messages c with
      | None => inl (OperationalError "no such table: messages")
      | Some rows => inr ({| messages := Some rows; statements := S (statements c) |}, rows)
      end
  end.

(** ** The class [DataManager] *)

Record MqttClient := { client_id : string }.

(** A task on [db_queue]: the tuples [('save_message', topic, payload)] and
    [('get_messages', result_queue)].  Every call of [get_messages] makes a
    queue of its own for the answer; a number names it. *)
Inductive Task :=
| SaveMessage (topic payload : string)
| GetMessages (result_queue : nat).

Record DataManager := {
  db_path : DbPath;
  conn : Connection;
  mqtt_client : option MqttClient;
  control_topics : gset string;
  sensor_control_topics : gset (option string);
  db_queue : list Task
}.

(** The two loops of [__init__] that collect the topics. *)
Definition init_control_topics (actions : list (string * Entry)) : gset string :=
  foldl (λ acc item,
    foldl (λ acc' data_key_info,
      let acc1 := match above_action data_key_info with
                  | Some a => {[ topic a ]} ∪ acc'
                  | None => acc'
                  end in
      match below_action data_key_info with
      | Some a => {[ topic a ]} ∪ acc1
      | None => acc1
      end) acc (get_data_keys item.2)) ∅ actions.

Definition init_sensor_control_topics (actions : list (string * Entry))
    : gset (option string) :=
  foldl (λ acc item, {[ get_control_topic item.2 ]} ∪ acc) ∅ actions.

(** [create_tables] runs on [self.conn]. *)
Definition create_tables (disk : Disk) (path : DbPath) (c : Connection)
    : Disk * Connection :=
  let c' := {| messages := create_table_if_not_exists (messages c);
               statements := S (statements c) |} in
  (if is_private path then disk
   else match path with
        | InMemory => disk
        | OnDisk file => <[file := default [] (messages c)]> disk
        end,
   c').

Definition __init__ (disk : Disk) (db_path : DbPath) (mqtt_client : option MqttClient)
    : Disk * DataManager :=
  let '(disk', c) := create_tables disk db_path (sqlite3_connect disk db_path) in
  (disk', {| db_path := db_path;
             conn := c;
             mqtt_client := mqtt_client;
             control_topics := init_control_topics SENSOR_ACTIONS;
             sensor_control_topics := init_sensor_control_topics SENSOR_ACTIONS;
             db_queue := [] |}).

(** [self.db_queue.put(task)] *)
Definition db_queue_put (self : DataManager) (task : Task) : DataManager :=
  {| db_path := db_path self;
     conn := conn self;
     mqtt_client := mqtt_client self;
     control_topics := control_topics self;
     sensor_control_topics := sensor_control_topics self;
     db_queue := db_queue self ++ [task] |}.

Definition save_message (self : DataManager) (topic payload : string) : DataManager :=
  db_queue_put self (SaveMessage topic payload).

(** The first half of [get_messages]: the task is queued; the caller then
    waits on [result_queue]. *)
Definition get_messages (self : DataManager) (result_queue : nat) : DataManager :=
  db_queue_put self (GetMessages result_queue).

(** ** The database thread

    [_db_thread_func] never returns by itself: on the tasks it takes from
    the queue, in the order the queue hands them out, it ends up either
    waiting in [db_queue.get()] for the next one, or dead, when a statement
    raised (nothing in the loop catches an exception). *)

Inductive Outcome :=
| Waiting
| Raised (e : Exn) (unprocessed : list Task).

Record Run := {
  final_conn : Connection;
  delivered : list (nat * list Row);
  outcome : Outcome
}.

(** The [while True] loop. *)
Fixpoint db_loop (env : SqliteEnv) (c : Connection) (tasks : list Task) : Run :=
  match tasks with
  | [] => {| final_conn := c; delivered := []; outcome := Waiting |}
  | SaveMessage topic payload :: rest =>
      match execute_insert env c topic payload with
      | inl e => {| final_conn := c; delivered := []; outcome := Raised e rest |}
      | inr c' => db_loop env c' rest
      end
  | GetMessages result_queue :: rest =>
      match execute_select env c with
      | inl e => {| final_conn := c; delivered := []; outcome := Raised e rest |}
      | inr (c', rows) =>
          let r := db_loop env c' rest in
          {| final_conn := final_conn r;
             delivered := (result_queue, rows) :: delivered r;
             outcome := outcome r |}
      end
  end.

Definition _db_thread_func (env : SqliteEnv) (disk : Disk) (self : DataManager)
    (tasks : list Task) : Run :=
  db_loop env (sqlite3_connect disk (db_path self)) tasks.

(** What the caller of [get_messages] gets from [result_queue.get()]: the
    rows put on its queue, or nothing at all when the thread never answers. *)
Definition result_queue_get (r : Run) (result_queue : nat) : option (list Row) :=
  dict_get_nat (delivered r) result_queue.

(** ** Commands and rule evaluation *)

(** [self.mqtt_client.publish_to(topic, message)]; the default
    [mqtt_client] is [None]. *)
Definition publish_to (client : option MqttClient) (to message : string) : IO unit :=
  match client with
  | None => raise (AttributeError "'NoneType' object has no attribute 'publish_to'")
  | Some _ => emit (Publish to message)
  end.

Definition send_control_message (self : DataManager) (sensor_type command : string)
    : IO unit :=
  match dict_get SENSOR_ACTIONS sensor_type with
  | None =>
      print ("Error: No information defined for sensor type '" +:+ sensor_type +:+ "'")
  | Some sensor_info =>
      match get_control_topic sensor_info with
      | None =>
          print ("Error: No control topic defined for sensor type '" +:+ sensor_type +:+ "'")
      | Some control =>
          let message := json_dumps [("sensor", sensor_type); ("command", command)] in
          publish_to (mqtt_client self) control message
      end
  end.

(** The choice of [action] for one rule and one value. *)
Definition select_action (data_key_info : DataKeyInfo) (sensor_name : string)
    (sensor_value : number) : IO (option Action) :=
  if num_gt sensor_value (threshold data_key_info) then
    print ("Sensor value above threshold for " +:+ sensor_name);;
    mret (above_action data_key_info)
  else if num_lt sensor_value (threshold data_key_info) then
    print ("Sensor value below threshold for " +:+ sensor_name);;
    mret (below_action data_key_info)
  else mret None.

(** The body of the loop over [data_keys]; the loop carries
    [sensor_handled]. *)
Definition process_data_key (self : DataManager) (sensor_name : string)
    (message_data : gmap string number) (sensor_handled : bool)
    (data_key_info : DataKeyInfo) : IO bool :=
  match message_data !! data_key data_key_info with
  | None => mret sensor_handled
  | Some sensor_value =>
      action ← select_action data_key_info sensor_name sensor_value;
      match action with
      | Some a =>
          let control := topic a in
          let message := json_dumps [("device", device a); ("state", state a)] in
          publish_to (mqtt_client self) control message
      | None => mret tt
      end;;
      mret true
  end.

(** The body of the loop over [SENSOR_ACTIONS.items()]. *)
Definition process_sensor (self : DataManager) (topic : string)
    (message_data : gmap string number) (sensor_handled : bool)
    (item : string * Entry) : IO bool :=
  let '(sensor_name, sensor_info) := item in
  if String.eqb sensor_name "device_control_topics" then mret sensor_handled
  else if bool_decide (get_data_topic sensor_info = Some topic) then
    for_each (process_data_key self sensor_name message_data)
             (get_data_keys sensor_info) sensor_handled
  else mret sensor_handled.

Definition process_sensor_data (self : DataManager) (topic : string)
    (message_data : gmap string number) : IO unit :=
  sensor_handled ← for_each (process_sensor self topic message_data) SENSOR_ACTIONS false;
  if negb sensor_handled then
    if negb (bool_decide (Some topic ∈ sensor_control_topics self)) then
      print ("Unknown sensor topic: " +:+ topic)
    else mret tt
  else mret tt.

(** ** Vocabulary of the specification *)

(** The data topics and the control topics of a rule table: every sensor's
    [control_topic] and the [topic] of every action. *)
Definition all_data_topics (actions : list (string * Entry)) : gset string :=
  list_to_set (omap (λ item, get_data_topic item.2) actions).

Definition action_topics (data_key_info : DataKeyInfo) : list string :=
  (topic <$> option_list (above_action data_key_info))
  ++ (topic <$> option_list (below_action data_key_info)).

Definition all_control_topics (actions : list (string * Entry)) : gset string :=
  list_to_set (omap (λ item, get_control_topic item.2) actions)
  ∪ list_to_set (item ← actions; data_key_info ← get_data_keys item.2;
                 action_topics data_key_info).

(** The rules a message on [topic] is evaluated against, in the order of the
    table. *)
Definition matched_rules (actions : list (string * Entry)) (topic : string)
    : list DataKeyInfo :=
  item ← actions;
  if String.eqb item.1 "device_control_topics" then []
  else if bool_decide (get_data_topic item.2 = Some topic) then get_data_keys item.2
  else [].

(** The rules whose field is in the reading, each with the value of its
    field, in the order of the rules. *)
Definition present_rules (message_data : gmap string number)
    (rules : list DataKeyInfo) : list (DataKeyInfo * number) :=
  omap (λ r, sensor_value ← message_data !! data_key r; Some (r, sensor_value)) rules.

(** What the evaluation of one rule on the value of its field adds to the
    trace: the line that announces on which side of the threshold the value
    is, and the publication of the action of that side when there is one;
    nothing when the value is the threshold. *)
Definition action_events (action : option Action) : list Event :=
  match action with
  | Some a => [Publish (topic a) (json_dumps [("device", device a); ("state", state a)])]
  | None => []
  end.

Definition value_events (sensor_name : string) (r : DataKeyInfo) (sensor_value : number)
    : list Event :=
  if num_gt sensor_value (threshold r) then
    Print ("Sensor value above threshold for " +:+ sensor_name)
    :: action_events (above_action r)
  else if num_lt sensor_value (threshold r) then
    Print ("Sensor value below threshold for " +:+ sensor_name)
    :: action_events (below_action r)
  else [].

(** What one rule publishes for a reading, when it publishes. *)
Definition rule_emission (message_data : gmap string number)
    (data_key_info : DataKeyInfo) : option (string * string) :=
  sensor_value ← message_data !! data_key data_key_info;
  a ← (if num_gt sensor_value (threshold data_key_info) then above_action data_key_info
       else if num_lt sensor_value (threshold data_key_info) then below_action data_key_info
       else None);
  Some (topic a, json_dumps [("device", device a); ("state", state a)]).

(** The append requests among the tasks, as (topic, payload), in the order
    of the queue. *)
Definition appends (tasks : list Task) : list (string * string) :=
  omap (λ task, match task with
                | SaveMessage topic payload => Some (topic, payload)
                | GetMessages _ => None
                end) tasks.

Definition row_message (r : Row) : string * string := (row_topic r, row_payload r).

(** The loop as the specification words it, to compare [db_loop] with: a
    failed append is logged and dropped, and the loop goes on with the next
    task; a failed query answers its caller with nothing. *)
Fixpoint db_loop_best_effort (env : SqliteEnv) (c : Connection) (tasks : list Task)
    : Run :=
  match tasks with
  | [] => {| final_conn := c; delivered := []; outcome := Waiting |}
  | SaveMessage topic payload :: rest =>
      match execute_insert env c topic payload with
      | inl _ =>
          db_loop_best_effort env
            {| messages := messages c; statements := S (statements c) |} rest
      | inr c' => db_loop_best_effort env c' rest
      end
  | GetMessages result_queue :: rest =>
      match execute_select env c with
      | inl _ =>
          db_loop_best_effort env
            {| messages := messages c; statements := S (statements c) |} rest
      | inr (c', rows) =>
          let r := db_loop_best_effort env c' rest in
          {| final_conn := final_conn r;
             delivered := (result_queue, rows) :: delivered r;
             outcome := outcome r |}
      end
  end.

(** ** Sample environments *)

(** SQLite never fails; the clock stands still. *)
Definition steady : SqliteEnv :=
  {| fault := λ _, None;
     current_timestamp := λ _, "2024-05-01 12:00:00";
     random_rowid := λ _, None |}.

(** The first statement of a connection finds the database locked. *)
Definition locked_once : SqliteEnv :=
  {| fault := λ n, if Nat.eqb n 0 then Some "database is locked" else None;
     current_timestamp := λ _, "2024-05-01 12:00:00";
     random_rowid := λ _, None |}.

(** SQLite never fails, and draws the [id]s 7, 6, 5, ... when it has to draw. *)
Definition lucky : SqliteEnv :=
  {| fault := λ _, None;
     current_timestamp := λ _, "2024-05-01 12:00:00";
     random_rowid := λ n, Some (7 - Z.of_nat n)%Z |}.

(** A row with the largest [id], a file that holds it and a manager on that
    file. *)
Definition last_row : Row :=
  {| row_id := max_rowid;
     row_topic := "old";
     row_payload := "row";
     row_timestamp := "2024-04-30 08:00:00" |}.

Definition full_disk : Disk :=
  (__init__ {[ "full.db" := [last_row] ]} (OnDisk "full.db") None).1.

Definition full_manager : DataManager :=
  (__init__ {[ "full.db" := [last_row] ]} (OnDisk "full.db") None).2.

Definition reading (l : list (string * number)) : gmap string number := list_to_map l.

Definition broker : MqttClient := {| client_id := "greenhouse" |}.

(** [DataManager()] with its default arguments. *)
Definition default_manager : DataManager := (__init__ ∅ InMemory None).2.

(** [DataManager("greenhouse.db", broker)] on a machine without that file,
    and the files after the call. *)
Definition greenhouse : DataManager :=
  (__init__ ∅ (OnDisk "greenhouse.db") (Some broker)).2.

Definition greenhouse_disk : Disk :=
  (__init__ ∅ (OnDisk "greenhouse.db") (Some broker)).1.

Definition fan_control : string := "/RG_7557_GreenHouse/Devices/Fan/Control".

(** [save_message("t1", "p1")], [save_message("t2", "p2")] and then
    [get_messages()], whose queue for the answer gets the number 0. *)
Definition two_appends_and_query (self : DataManager) : DataManager :=
  get_messages (save_message (save_message self "t1" "p1") "t2" "p2") 0.

(** The sensor of [SENSOR_ACTIONS] under a key (a sensor without rules when
    there is none). *)
Definition sensor_info_of (sensor_type : string) : SensorInfo :=
  match dict_get SENSOR_ACTIONS sensor_type with
  | Some (SensorEntry s) => s
  | _ => {| data_topic := EmptyString; control_topic := EmptyString; data_keys := [] |}
  end.

(** The first rule of ["dht"]. *)
Definition temperature_rule : DataKeyInfo :=
  {| data_key := "Temperature";
     threshold := num 28;
     above_action := Some {| device := "fan"; state := "ON"; topic := fan_control |};
     below_action := None |}.

(** ** Further vocabulary *)

(** Whether the reading has a value for the field of a rule. *)
Definition field_present (message_data : gmap string number) (r : DataKeyInfo) : bool :=
  bool_decide (is_Some (message_data !! data_key r)).

(** The events of the loops over the rules: publications, and the lines that
    announce a value above or below a threshold. *)
Definition rule_event (ev : Event) : bool :=
  match ev with
  | Publish _ _ => true
  | Print line => String.prefix "Sensor value " line
  end.

(** The characters [json.dumps] leaves as they are or escapes with: the
    printable ASCII characters. *)
Definition printable (c : ascii) : bool :=
  ((32 <=? N_of_ascii c) && (N_of_ascii c <=? 126))%N.

Fixpoint string_forallb (f : ascii → bool) (s : string) : bool :=
  match s with
  | EmptyString => true
  | String c s' => f c && string_forallb f s'
  end.

(** What [publish_to] raises on a manager without a client. *)
Definition no_client_error : Exn :=
  AttributeError "'NoneType' object has no attribute 'publish_to'".


(** The queues of the query requests among the tasks, in the order of the
    queue. *)
Definition queries (tasks : list Task) : list nat :=
  omap (λ task, match task with
                | SaveMessage _ _ => None
                | GetMessages result_queue => Some result_queue
                end) tasks.

(** The rows of a table are in strictly ascending [id]. *)
Definition ascending_ids (rows : list Row) : Prop :=
  StronglySorted (λ a b, (row_id a < row_id b)%Z) rows.

(** A rule whose two actions differ, for the samples. *)
Definition thermostat_rule : DataKeyInfo :=
  {| data_key := "Temperature";
     threshold := num 18;
     above_action := Some {| device := "cooler"; state := "ON"; topic := "/Cooler" |};
     below_action := Some {| device := "heater"; state := "ON"; topic := "/Heater" |} |}.

(** * Properties *)

(** ** Numbers *)

Lemma Qltb_irrefl_eq (x y : Q) : Qeq_bool x y = true → Qltb x y = false ∧ Qltb y x = false.
Proof.
  intros E. apply Qeq_bool_iff in E. unfold Qltb.
  assert (Qle_bool x y = true) as ->
    by (apply Qle_bool_iff; rewrite E; apply Qle_refl).
  assert (Qle_bool y x = true) as ->
    by (apply Qle_bool_iff; rewrite E; apply Qle_refl).
  done.
Qed.

Lemma num_eq_not_gt (a b : number) :
  num_eq a b = true → num_gt a b = false ∧ num_lt a b = false.
Proof.
  unfold num_lt. destruct a, b; simpl; try done.
  intros E. destruct (Qltb_irrefl_eq _ _ E). done.
Qed.

Lemma num_gt_not_lt (a b : number) : num_gt a b = true → num_lt a b = false.
Proof.
  unfold num_lt. destruct a as [x| | |], b as [y| | |]; simpl; try done.
  unfold Qltb. intros H. apply negb_true_iff in H. apply negb_false_iff.
  apply Qle_bool_iff. destruct (Qlt_le_dec y x) as [L|L].
  - by apply Qlt_le_weak.
  - apply Qle_bool_iff in L. congruence.
Qed.

(** ** The effect monad *)

Lemma io_bind_inr {A B} (m : IO A) (k : A → IO B) w w' a :
  m w = (w', inr a) → (m ≫= k) w = k a w'.
Proof. intros H. unfold mbind, IO_bind, io_bind. by rewrite H. Qed.

Lemma published_app w1 w2 : published (w1 ++ w2) = published w1 ++ published w2.
Proof. unfold published. apply omap_app. Qed.

Ltac io_unfold :=
  unfold mbind, mret, IO_bind, IO_ret, io_bind, io_ret, print, emit, raise,
    publish_to in *.

(** ** One rule *)

(** C3.  When the field of a rule is in the reading with a value equal to
    the threshold, the rule does nothing at all: it prints nothing and
    publishes nothing (neither [above_action] nor [below_action]), and the
    loop goes on with [sensor_handled] set. *)
Theorem value_equal_to_threshold_emits_nothing
    (self : DataManager) (sensor_name : string) (message_data : gmap string number)
    (sensor_handled : bool) (data_key_info : DataKeyInfo) (sensor_value : number)
    (w : list Event) :
  message_data !! data_key data_key_info = Some sensor_value →
  num_eq sensor_value (threshold data_key_info) = true →
  process_data_key self sensor_name message_data sensor_handled data_key_info w
  = (w, inr true).
Proof.
  intros Hget Heq. destruct (num_eq_not_gt _ _ Heq) as [Hgt Hlt].
  unfold process_data_key, select_action. rewrite Hget, Hgt, Hlt. done.
Qed.

Lemma value_equal_to_threshold_emits_nothing_witness :
  reading [("Temperature", Finite (56 # 2))] !! data_key temperature_rule
  = Some (Finite (56 # 2))
  ∧ num_eq (Finite (56 # 2)) (threshold temperature_rule) = true
  ∧ process_data_key greenhouse "dht" (reading [("Temperature", Finite (56 # 2))])
      false temperature_rule []
    = ([], inr true).
Proof.
  split; [reflexivity|]. split; [reflexivity|].
  apply (value_equal_to_threshold_emits_nothing greenhouse "dht"
           (reading [("Temperature", Finite (56 # 2))]) false temperature_rule
           (Finite (56 # 2)) []); reflexivity.
Defined.

(** C4.  When the field of a rule is in the reading with a value above the
    threshold, the rule announces it and publishes [above_action] when there
    is one, and nothing when there is none; [below_action] plays no part. *)
Theorem value_above_threshold_emits_above_action
    (self : DataManager) (client : MqttClient) (sensor_name : string)
    (message_data : gmap string number) (sensor_handled : bool)
    (data_key_info : DataKeyInfo) (sensor_value : number) (w : list Event) :
  mqtt_client self = Some client →
  message_data !! data_key data_key_info = Some sensor_value →
  num_gt sensor_value (threshold data_key_info) = true →
  process_data_key self sensor_name message_data sensor_handled data_key_info w
  = (w ++ Print ("Sensor value above threshold for " +:+ sensor_name)
         :: match above_action data_key_info with
            | Some a => [Publish (topic a)
                           (json_dumps [("device", device a); ("state", state a)])]
            | None => []
            end,
     inr true).
Proof.
  intros Hclient Hget Hgt.
  unfold process_data_key, select_action. rewrite Hget, Hgt, Hclient.
  io_unfold. destruct (above_action data_key_info) as [a|]; simpl.
  - by rewrite <- app_assoc.
  - done.
Qed.

Lemma value_above_threshold_emits_above_action_witness :
  mqtt_client greenhouse = Some broker
  ∧ reading [("Temperature", num 30)] !! data_key temperature_rule = Some (num 30)
  ∧ num_gt (num 30) (threshold temperature_rule) = true
  ∧ process_data_key greenhouse "dht" (reading [("Temperature", num 30)])
      false temperature_rule []
    = ([] ++ Print ("Sensor value above threshold for " +:+ "dht")
          :: match above_action temperature_rule with
             | Some a => [Publish (topic a)
                            (json_dumps [("device", device a); ("state", state a)])]
             | None => []
             end,
       inr true).
Proof.
  split; [reflexivity|]. split; [reflexivity|]. split; [reflexivity|].
  apply (value_above_threshold_emits_above_action greenhouse broker "dht"
           (reading [("Temperature", num 30)]) false temperature_rule (num 30) []);
    reflexivity.
Defined.

Lemma process_data_key_absent
    (self : DataManager) (sensor_name : string) (message_data : gmap string number)
    (sensor_handled : bool) (data_key_info : DataKeyInfo) (w : list Event) :
  message_data !! data_key data_key_info = None →
  process_data_key self sensor_name message_data sensor_handled data_key_info w
  = (w, inr sensor_handled).
Proof. intros Hget. unfold process_data_key. by rewrite Hget. Qed.

(** With a client, a rule never raises, and publishes what [rule_emission]
    says. *)
Lemma process_data_key_published
    (self : DataManager) (client : MqttClient) (sensor_name : string)
    (message_data : gmap string number) (sensor_handled : bool)
    (data_key_info : DataKeyInfo) (w : list Event) :
  mqtt_client self = Some client →
  ∃ w' handled',
    process_data_key self sensor_name message_data sensor_handled data_key_info w
    = (w', inr handled')
    ∧ published w'
      = published w ++ option_list (rule_emission message_data data_key_info).
Proof.
  intros Hclient. unfold process_data_key, rule_emission, select_action.
  destruct (message_data !! data_key data_key_info) as [v|]; simpl.
  2: { eexists _, _. split; [done|]. by rewrite app_nil_r. }
  rewrite Hclient. io_unfold.
  destruct (num_gt v (threshold data_key_info)); simpl.
  { destruct (above_action data_key_info) as [a|]; simpl;
      (eexists _, _; split; [done|]);
      rewrite ?published_app; simpl; by rewrite ?app_nil_r, <- ?app_assoc. }
  destruct (num_lt v (threshold data_key_info)); simpl.
  { destruct (below_action data_key_info) as [a|]; simpl;
      (eexists _, _; split; [done|]);
      rewrite ?published_app; simpl; by rewrite ?app_nil_r, <- ?app_assoc. }
  eexists _, _. split; [done|]. by rewrite app_nil_r.
Qed.

Lemma for_each_data_keys_published
    (self : DataManager) (client : MqttClient) (sensor_name : string)
    (message_data : gmap string number) (rules : list DataKeyInfo) :
  mqtt_client self = Some client →
  ∀ (sensor_handled : bool) (w : list Event),
  ∃ w' handled',
    for_each (process_data_key self sensor_name message_data) rules sensor_handled w
    = (w', inr handled')
    ∧ published w' = published w ++ omap (rule_emission message_data) rules.
Proof.
  intros Hclient. induction rules as [|r rules IH]; intros h w; simpl.
  - eexists _, _. split; [done|]. by rewrite app_nil_r.
  - destruct (process_data_key_published self client sensor_name message_data h r w
                Hclient) as (w1 & h1 & Hstep & Hpub1).
    destruct (IH h1 w1) as (w2 & h2 & Hrest & Hpub2).
    exists w2, h2. split.
    + by rewrite (io_bind_inr _ _ _ _ _ Hstep).
    + rewrite Hpub2, Hpub1, <- app_assoc. f_equal.
      by destruct (rule_emission message_data r).
Qed.

(** ** One sensor *)

(** The loop over the rules of a sensor does exactly what it does on the
    rules whose field is in the reading, and the rules whose field is not in
    the reading, run by themselves, change nothing and raise nothing, with
    or without a client. *)
Lemma absent_fields_do_nothing
    (self : DataManager) (sensor_name : string) (message_data : gmap string number)
    (s : SensorInfo) (sensor_handled : bool) (w : list Event) :
  for_each (process_data_key self sensor_name message_data) (data_keys s)
           sensor_handled w
  = for_each (process_data_key self sensor_name message_data)
             (filter (λ r, is_Some (message_data !! data_key r)) (data_keys s))
             sensor_handled w
  ∧ for_each (process_data_key self sensor_name message_data)
             (filter (λ r, message_data !! data_key r = None) (data_keys s))
             sensor_handled w
    = (w, inr sensor_handled).
Proof.
  generalize (data_keys s) as rules. intros rules. split.
  - revert sensor_handled w.
    induction rules as [|r rules IH]; intros h w; [done|].
    rewrite filter_cons. destruct (decide (is_Some (message_data !! data_key r))) as [Hs|Hn].
    + simpl. unfold mbind, IO_bind, io_bind.
      destruct (process_data_key self sensor_name message_data h r w) as [w1 [e|h1]];
        [done|apply IH].
    + simpl. rewrite (io_bind_inr _ _ w w h); [apply IH|].
      apply process_data_key_absent. by apply eq_None_not_Some.
  - induction rules as [|r rules IH]; [done|].
    rewrite filter_cons. destruct (decide (message_data !! data_key r = None)) as [Hn|Hs].
    + simpl. rewrite (io_bind_inr _ _ w w sensor_handled); [apply IH|].
      by apply process_data_key_absent.
    + apply IH.
Qed.

Lemma process_data_key_present
    (self : DataManager) (client : MqttClient) (sensor_name : string)
    (message_data : gmap string number) (sensor_handled : bool)
    (r : DataKeyInfo) (sensor_value : number) (w : list Event) :
  mqtt_client self = Some client →
  message_data !! data_key r = Some sensor_value →
  process_data_key self sensor_name message_data sensor_handled r w
  = (w ++ value_events sensor_name r sensor_value, inr true).
Proof.
  intros Hclient Hget.
  unfold process_data_key, select_action, value_events, action_events.
  rewrite Hget, Hclient. io_unfold.
  destruct (num_gt sensor_value (threshold r)); simpl.
  { destruct (above_action r); simpl; by rewrite <- ?app_assoc. }
  destruct (num_lt sensor_value (threshold r)); simpl.
  { destruct (below_action r); simpl; by rewrite <- ?app_assoc. }
  by rewrite app_nil_r.
Qed.

(** C6.  The loop over the rules of a sensor evaluates the rules whose field
    is in the reading, and only those: what it adds to the trace is, rule
    after rule in the order of [data_keys], what the evaluation of each of
    them on the value of its field prints and publishes; [sensor_handled]
    is set as soon as there is one; and the loop returns.  The rules whose
    field is not in the reading, run by themselves, add nothing, leave
    [sensor_handled] as it was and raise nothing. *)
Theorem present_rules_are_evaluated_absent_ones_skipped
    (self : DataManager) (client : MqttClient) (sensor_name : string)
    (message_data : gmap string number) (s : SensorInfo)
    (sensor_handled : bool) (w : list Event) :
  mqtt_client self = Some client →
  for_each (process_data_key self sensor_name message_data) (data_keys s)
           sensor_handled w
  = (w ++ (present_rules message_data (data_keys s)
           ≫= λ rv, value_events sensor_name rv.1 rv.2),
     inr match present_rules message_data (data_keys s) with
         | [] => sensor_handled
         | _ :: _ => true
         end)
  ∧ for_each (process_data_key self sensor_name message_data)
             (filter (λ r, message_data !! data_key r = None) (data_keys s))
             sensor_handled w
    = (w, inr sensor_handled).
Proof.
  intros Hclient. split.
  - generalize (data_keys s) as rules. intros rules. revert sensor_handled w.
    induction rules as [|r rules IH]; intros h w.
    { simpl. by rewrite app_nil_r. }
    cbn [for_each]. unfold present_rules in *. cbn [omap list_omap].
    destruct (message_data !! data_key r) as [v|] eqn:Hget; simpl.
    + rewrite (io_bind_inr _ _ _ _ _
                 (process_data_key_present self client sensor_name message_data
                    h r v w Hclient Hget)).
      rewrite IH, <- app_assoc. f_equal. f_equal.
      by destruct (omap _ rules).
    + rewrite (io_bind_inr _ _ w w h); [apply IH|].
      by apply process_data_key_absent.
  - apply absent_fields_do_nothing.
Qed.

Lemma present_rules_are_evaluated_absent_ones_skipped_witness :
  mqtt_client greenhouse = Some broker
  ∧ for_each (process_data_key greenhouse "dht" (reading [("Temperature", num 30)]))
      (data_keys (sensor_info_of "dht")) false []
    = ([] ++ (present_rules (reading [("Temperature", num 30)])
                (data_keys (sensor_info_of "dht"))
              ≫= λ rv, value_events "dht" rv.1 rv.2),
       inr match present_rules (reading [("Temperature", num 30)])
                   (data_keys (sensor_info_of "dht")) with
           | [] => false
           | _ :: _ => true
           end)
  ∧ for_each (process_data_key greenhouse "dht" (reading [("Temperature", num 30)]))
      (filter (λ r, reading [("Temperature", num 30)] !! data_key r = None)
         (data_keys (sensor_info_of "dht")))
      false []
    = ([], inr false).
Proof.
  split; [reflexivity|].
  apply (present_rules_are_evaluated_absent_ones_skipped greenhouse broker "dht"
           (reading [("Temperature", num 30)]) (sensor_info_of "dht") false []).
  reflexivity.
Defined.

(** With only the temperature in the reading, the temperature rule of the
    DHT sensor is evaluated and the humidity rule is not. *)
Example temperature_only_reading :
  present_rules (reading [("Temperature", num 30)]) (data_keys (sensor_info_of "dht"))
  = [(temperature_rule, num 30)]
  ∧ for_each (process_data_key greenhouse "dht" (reading [("Temperature", num 30)]))
      (data_keys (sensor_info_of "dht")) false []
    = ([Print "Sensor value above threshold for dht";
        Publish fan_control (json_dumps [("device", "fan"); ("state", "ON")])],
       inr true).
Proof. split; reflexivity. Qed.

(** C7.  Evaluating a reading against a sensor whose data topic is the
    topic of the message publishes, after what was published before, the
    emissions of the rules in the order of [data_keys], one at most for each
    rule; it does not raise. *)
Theorem emissions_in_rule_order
    (self : DataManager) (client : MqttClient) (topic : string)
    (message_data : gmap string number) (sensor_name : string) (s : SensorInfo)
    (sensor_handled : bool) (w : list Event) :
  mqtt_client self = Some client →
  sensor_name ≠ "device_control_topics" →
  data_topic s = topic →
  ∃ w' handled',
    process_sensor self topic message_data sensor_handled (sensor_name, SensorEntry s) w
    = (w', inr handled')
    ∧ published w' = published w ++ omap (rule_emission message_data) (data_keys s).
Proof.
  intros Hclient Hname Htopic. unfold process_sensor.
  apply String.eqb_neq in Hname. rewrite Hname. simpl.
  rewrite bool_decide_eq_true_2 by congruence.
  by apply (for_each_data_keys_published self client).
Qed.

Lemma emissions_in_rule_order_witness :
  mqtt_client greenhouse = Some broker
  ∧ "dht" ≠ "device_control_topics"
  ∧ data_topic (sensor_info_of "dht") = "/RG_7557_GreenHouse/Sensors/DHT/Data"
  ∧ ∃ w' handled',
      process_sensor greenhouse "/RG_7557_GreenHouse/Sensors/DHT/Data"
        (reading [("Humidity", num 70); ("Temperature", num 30)]) false
        ("dht", SensorEntry (sensor_info_of "dht")) []
      = (w', inr handled')
      ∧ published w'
        = published []
          ++ omap (rule_emission (reading [("Humidity", num 70); ("Temperature", num 30)]))
               (data_keys (sensor_info_of "dht")).
Proof.
  split; [reflexivity|]. split; [discriminate|]. split; [reflexivity|].
  apply (emissions_in_rule_order greenhouse broker
           "/RG_7557_GreenHouse/Sensors/DHT/Data"
           (reading [("Humidity", num 70); ("Temperature", num 30)])
           "dht" (sensor_info_of "dht") false []).
  - reflexivity.
  - discriminate.
  - reflexivity.
Defined.

(** ** The whole table *)

Lemma for_each_sensors_published
    (self : DataManager) (client : MqttClient) (topic : string)
    (message_data : gmap string number) (actions : list (string * Entry)) :
  mqtt_client self = Some client →
  ∀ (sensor_handled : bool) (w : list Event),
  ∃ w' handled',
    for_each (process_sensor self topic message_data) actions sensor_handled w
    = (w', inr handled')
    ∧ published w'
      = published w ++ omap (rule_emission message_data) (matched_rules actions topic).
Proof.
  intros Hclient. induction actions as [|[name e] actions IH]; intros h w.
  - exists w, h. split; [done|]. by rewrite app_nil_r.
  - assert (∃ w1 h1,
      process_sensor self topic message_data h (name, e) w = (w1, inr h1)
      ∧ published w1
        = published w
          ++ omap (rule_emission message_data)
               (if String.eqb name "device_control_topics" then []
                else if bool_decide (get_data_topic e = Some topic)
                     then get_data_keys e else [])) as (w1 & h1 & Hstep & Hpub1).
    { unfold process_sensor.
      destruct (String.eqb name "device_control_topics").
      { exists w, h. split; [done|]. by rewrite app_nil_r. }
      destruct (bool_decide (get_data_topic e = Some topic)).
      { by apply (for_each_data_keys_published self client). }
      exists w, h. split; [done|]. by rewrite app_nil_r. }
    destruct (IH h1 w1) as (w2 & h2 & Hrest & Hpub2).
    exists w2, h2. split.
    + simpl. by rewrite (io_bind_inr _ _ _ _ _ Hstep).
    + unfold matched_rules in *. rewrite bind_cons, omap_app. simpl.
      by rewrite Hpub2, Hpub1, <- app_assoc.
Qed.

(** X2.  With a client, [process_sensor_data] returns for every topic and every
    reading whose values are numbers, and publishes the emissions of the
    matched rules in the order of the table. *)
Lemma process_sensor_data_published
    (self : DataManager) (client : MqttClient) (topic : string)
    (message_data : gmap string number) (w : list Event) :
  mqtt_client self = Some client →
  ∃ w',
    process_sensor_data self topic message_data w = (w', inr tt)
    ∧ published w'
      = published w
        ++ omap (rule_emission message_data) (matched_rules SENSOR_ACTIONS topic).
Proof.
  intros Hclient. unfold process_sensor_data.
  destruct (for_each_sensors_published self client topic message_data SENSOR_ACTIONS
              Hclient false w) as (w1 & h1 & Hloop & Hpub).
  rewrite (io_bind_inr _ _ _ _ _ Hloop).
  destruct h1; simpl; [by exists w1|].
  destruct (bool_decide (Some topic ∈ sensor_control_topics self)); simpl.
  - by exists w1.
  - eexists. split; [reflexivity|]. rewrite published_app, Hpub. simpl.
    by rewrite app_nil_r.
Qed.

(** ** Control commands *)

(** C8.  A command for a sensor type that is no key of [SENSOR_ACTIONS]
    prints the error for an undefined sensor type, publishes nothing and
    returns. *)
Theorem unknown_sensor_type_is_dropped
    (self : DataManager) (sensor_type command : string) (w : list Event) :
  dict_get SENSOR_ACTIONS sensor_type = None →
  send_control_message self sensor_type command w
  = (w ++ [Print ("Error: No information defined for sensor type '"
                  +:+ sensor_type +:+ "'")],
     inr tt).
Proof. intros Hget. unfold send_control_message. by rewrite Hget. Qed.

Lemma unknown_sensor_type_is_dropped_witness :
  dict_get SENSOR_ACTIONS "unknown_sensor" = None
  ∧ send_control_message (__init__ ∅ InMemory None).2 "unknown_sensor" "ON" []
    = ([Print "Error: No information defined for sensor type 'unknown_sensor'"],
       inr tt).
Proof.
  split; [reflexivity|].
  apply (unknown_sensor_type_is_dropped _ "unknown_sensor" "ON" []). reflexivity.
Defined.

(** C10.  The key ["device_control_topics"] is found in [SENSOR_ACTIONS],
    its value has no [control_topic], and the command ends on the error for
    a missing control topic: nothing is published. *)
Theorem device_control_topics_is_not_a_sensor
    (self : DataManager) (command : string) (w : list Event) :
  (∃ d, dict_get SENSOR_ACTIONS "device_control_topics" = Some (DeviceEntry d))
  ∧ send_control_message self "device_control_topics" command w
    = (w ++ [Print "Error: No control topic defined for sensor type 'device_control_topics'"],
       inr tt).
Proof. split; [by eexists|reflexivity]. Qed.

(** ** The table *)

(** C9.  No control topic of [SENSOR_ACTIONS] is a data topic. *)
Theorem control_topics_disjoint_from_data_topics :
  all_control_topics SENSOR_ACTIONS ## all_data_topics SENSOR_ACTIONS.
Proof. apply (bool_decide_unpack _). vm_compute. reflexivity. Qed.

(** The sets [__init__] collects are the control topics of the table; the
    device dict adds [None] to [sensor_control_topics]. *)
Lemma init_topics_are_control_topics :
  all_control_topics SENSOR_ACTIONS
  = list_to_set (omap id (elements (init_sensor_control_topics SENSOR_ACTIONS)))
    ∪ init_control_topics SENSOR_ACTIONS.
Proof. apply (bool_decide_unpack _). vm_compute. reflexivity. Qed.

Lemma init_sensor_control_topics_has_None :
  None ∈ init_sensor_control_topics SENSOR_ACTIONS.
Proof. apply (bool_decide_unpack _). vm_compute. reflexivity. Qed.

(** ** Messages on control topics *)

(** On the control topic of a sensor, [process_sensor_data] does nothing. *)
Lemma sensor_control_topic_is_silent
    (disk : Disk) (path : DbPath) (client : option MqttClient)
    (topic : string) (message_data : gmap string number) (w : list Event) :
  Some topic ∈ init_sensor_control_topics SENSOR_ACTIONS →
  process_sensor_data (__init__ disk path client).2 topic message_data w = (w, inr tt).
Proof.
  intros Hin.
  assert (topic = "/RG_7557_GreenHouse/Sensors/DHT/Control"
          ∨ topic = "/RG_7557_GreenHouse/Sensors/Light/Control"
          ∨ topic = "/RG_7557_GreenHouse/Sensors/Moisture/Control") as Hcases.
  { revert Hin. unfold init_sensor_control_topics. simpl.
    rewrite !elem_of_union, !elem_of_singleton, elem_of_empty.
    intros [H|[H|[H|[H|[]]]]]; inversion H; auto. }
  destruct path; destruct Hcases as [->|[->| ->]]; reflexivity.
Qed.

(** C1.  The topic of the fan's action is a control topic of the table and
    no data topic, and a message on it is reported as an unknown sensor
    topic: [process_sensor_data] looks the topic up in
    [sensor_control_topics] only, and [control_topics] is never read. *)
Theorem action_topic_is_reported_unknown
    (disk : Disk) (path : DbPath) (client : option MqttClient)
    (message_data : gmap string number) (w : list Event) :
  fan_control ∈ all_control_topics SENSOR_ACTIONS
  ∧ (fan_control ∉ all_data_topics SENSOR_ACTIONS)
  ∧ fan_control ∈ control_topics (__init__ disk path client).2
  ∧ process_sensor_data (__init__ disk path client).2 fan_control message_data w
    = (w ++ [Print ("Unknown sensor topic: " +:+ fan_control)], inr tt).
Proof.
  assert (fan_control ∈ all_control_topics SENSOR_ACTIONS)
    as H1 by (apply (bool_decide_unpack _); vm_compute; reflexivity).
  assert (fan_control ∉ all_data_topics SENSOR_ACTIONS)
    as H2 by (apply (bool_decide_unpack _); vm_compute; reflexivity).
  assert (fan_control ∈ init_control_topics SENSOR_ACTIONS)
    as H3 by (apply (bool_decide_unpack _); vm_compute; reflexivity).
  destruct path; repeat split; try done; reflexivity.
Qed.

(** ** The database thread *)

Lemma foldl_max_rowid_ge (rows : list Row) (m : Z) :
  (m ≤ foldl (λ m r', Z.max m (row_id r')) m rows)%Z
  ∧ ∀ r, r ∈ rows → (row_id r ≤ foldl (λ m r', Z.max m (row_id r')) m rows)%Z.
Proof.
  revert m. induction rows as [|x rows IH]; intros m; simpl.
  - split; [lia|]. intros r Hr. by apply elem_of_nil in Hr.
  - destruct (IH (Z.max m (row_id x))) as [H1 H2]. split; [lia|].
    intros r Hr. apply elem_of_cons in Hr as [->|Hr]; [lia|by apply H2].
Qed.

(** A new row gets an [id] above every [id] of the table, so a table stays
    in ascending [id] when rows are added at its end. *)
Lemma next_rowid_fresh (rows : list Row) (r : Row) :
  r ∈ rows → (row_id r < next_rowid rows)%Z.
Proof.
  destruct rows as [|x rows]; [by intros ?%elem_of_nil|].
  unfold next_rowid. destruct (foldl_max_rowid_ge rows (row_id x)) as [H1 H2].
  intros [->|Hr]%elem_of_cons; [lia|]. specialize (H2 r Hr). lia.
Qed.

(** The loop on a queue in two parts: when the first part is processed
    without an exception, the second starts where the first ended. *)
Lemma db_loop_app (env : SqliteEnv) (tasks rest : list Task) :
  ∀ c : Connection,
  outcome (db_loop env c tasks) = Waiting →
  db_loop env c (tasks ++ rest)
  = {| final_conn := final_conn (db_loop env (final_conn (db_loop env c tasks)) rest);
       delivered := delivered (db_loop env c tasks)
                    ++ delivered (db_loop env (final_conn (db_loop env c tasks)) rest);
       outcome := outcome (db_loop env (final_conn (db_loop env c tasks)) rest) |}.
Proof.
  induction tasks as [|[topic payload|q] tasks IH]; intros c; simpl.
  - intros _. by destruct (db_loop env c rest).
  - destruct (execute_insert env c topic payload) as [e|c']; [done|apply IH].
  - destruct (execute_select env c) as [e|[c' rows]]; [done|]. simpl.
    intros H. by rewrite (IH c' H).
Qed.

Lemma next_rowid_snoc (rows : list Row) (row : Row) :
  row_id row = next_rowid rows →
  next_rowid (rows ++ [row]) = (next_rowid rows + 1)%Z.
Proof.
  destruct rows as [|r rest]; simpl.
  - intros ->. done.
  - rewrite foldl_app. simpl. intros ->. lia.
Qed.

Lemma insert_row_with_room
    (env : SqliteEnv) (n : nat) (rows : list Row) (topic payload : string) :
  (next_rowid rows ≤ max_rowid)%Z →
  insert_row env n rows topic payload
  = Some (rows ++ [{| row_id := next_rowid rows;
                      row_topic := topic;
                      row_payload := payload;
                      row_timestamp := current_timestamp env n |}]).
Proof.
  intros Hroom. unfold insert_row.
  by rewrite (proj2 (Z.leb_le _ _) Hroom).
Qed.

(** Without faults, on a database that has the table and room for the new
    [id]s, the loop processes every task and the table grows by the appended
    messages, in order. *)
Lemma db_loop_no_fault (env : SqliteEnv) (tasks : list Task) :
  (∀ n, fault env n = None) →
  ∀ (c : Connection) (init : list Row),
  messages c = Some init →
  (next_rowid init + Z.of_nat (List.length (appends tasks)) ≤ max_rowid + 1)%Z →
  outcome (db_loop env c tasks) = Waiting
  ∧ ∃ new, messages (final_conn (db_loop env c tasks)) = Some (init ++ new)
           ∧ row_message <$> new = appends tasks.
Proof.
  intros Hok.
  induction tasks as [|[topic payload|q] tasks IH]; intros c init Hc Hroom.
  - split; [done|]. exists []. by rewrite app_nil_r.
  - change (appends (SaveMessage topic payload :: tasks))
      with ((topic, payload) :: appends tasks) in *.
    cbn [List.length] in Hroom. cbn [db_loop].
    unfold execute_insert. rewrite Hok, Hc.
    rewrite insert_row_with_room by lia.
    match goal with |- context [db_loop env ?c' tasks] =>
      destruct (IH c' _ eq_refl) as (Hout & new & Hnew & Hmsg) end.
    { rewrite next_rowid_snoc by done. lia. }
    split; [done|]. eexists (_ :: new). split.
    + rewrite Hnew. by rewrite <- app_assoc.
    + rewrite fmap_cons, Hmsg. done.
  - change (appends (GetMessages q :: tasks)) with (appends tasks) in *.
    cbn [db_loop]. unfold execute_select. rewrite Hok, Hc. simpl.
    match goal with |- context [db_loop env ?c' tasks] =>
      destruct (IH c' init eq_refl Hroom) as (Hout & new & Hnew & Hmsg) end.
    split; [done|]. by exists new.
Qed.

(** On a database that has the table and room for the new [id]s, and while
    SQLite does not fail, the thread processes a queue that ends with a
    query to the end, and puts on the queue of that query the rows the table
    had, followed by one row for each append request queued before the
    query, in the order of the queue. *)
Lemma appends_are_visible_on_a_database_with_the_table
    (env : SqliteEnv) (disk : Disk) (self : DataManager) (init : list Row)
    (tasks : list Task) (result_queue : nat) :
  messages (sqlite3_connect disk (db_path self)) = Some init →
  (next_rowid init + Z.of_nat (List.length (appends tasks)) ≤ max_rowid + 1)%Z →
  (∀ n, fault env n = None) →
  outcome (_db_thread_func env disk self (tasks ++ [GetMessages result_queue])) = Waiting
  ∧ ∃ new,
      delivered (_db_thread_func env disk self (tasks ++ [GetMessages result_queue]))
      = delivered (_db_thread_func env disk self tasks) ++ [(result_queue, init ++ new)]
      ∧ row_message <$> new = appends tasks.
Proof.
  intros Hinit Hroom Hok. unfold _db_thread_func.
  destruct (db_loop_no_fault env tasks Hok _ _ Hinit Hroom)
    as (Hout & new & Hnew & Hmsg).
  rewrite (db_loop_app env tasks [GetMessages result_queue] _ Hout). simpl.
  unfold execute_select. rewrite Hok, Hnew. simpl.
  split; [done|]. by exists new.
Qed.

(** C5.  On a manager made with the default [db_path], two appends queued
    before a query are not in the result of the query, which never comes.
    [__init__] creates the table on [self.conn], but the thread opens a
    connection of its own, and for [":memory:"] that is another, empty
    database: the first [INSERT] raises, the thread ends with the second
    append and the query unprocessed, and nothing is ever put on the queue
    of the query, whatever SQLite does and whatever files exist. *)
Theorem default_manager_never_answers_query
    (env : SqliteEnv) (disk : Disk) (client : option MqttClient) :
  messages (conn (__init__ disk InMemory client).2) = Some []
  ∧ db_queue (two_appends_and_query (__init__ disk InMemory client).2)
    = [SaveMessage "t1" "p1"; SaveMessage "t2" "p2"; GetMessages 0]
  ∧ (∃ e,
       _db_thread_func env (__init__ disk InMemory client).1
         (two_appends_and_query (__init__ disk InMemory client).2)
         (db_queue (two_appends_and_query (__init__ disk InMemory client).2))
       = {| final_conn := {| messages := None; statements := 0 |};
            delivered := [];
            outcome := Raised e [SaveMessage "t2" "p2"; GetMessages 0] |})
  ∧ result_queue_get
      (_db_thread_func env (__init__ disk InMemory client).1
         (two_appends_and_query (__init__ disk InMemory client).2)
         (db_queue (two_appends_and_query (__init__ disk InMemory client).2)))
      0
    = None.
Proof.
  split; [done|]. split; [done|].
  unfold _db_thread_func, two_appends_and_query. simpl.
  unfold execute_insert. simpl.
  destruct (fault env 0); (split; [by eexists|done]).
Qed.

(** C2, as the code has it.  When the [INSERT] of an append request raises,
    nothing catches the exception: the thread ends there, with the database
    as it was before the request and the tasks behind it unprocessed.  The
    caller of [save_message] only queued the task. *)
Theorem append_failure_ends_thread
    (env : SqliteEnv) (disk : Disk) (self : DataManager) (tasks rest : list Task)
    (topic payload : string) (e : Exn) :
  outcome (_db_thread_func env disk self tasks) = Waiting →
  execute_insert env (final_conn (_db_thread_func env disk self tasks)) topic payload
  = inl e →
  db_queue (save_message self topic payload)
  = db_queue self ++ [SaveMessage topic payload]
  ∧ _db_thread_func env disk self (tasks ++ SaveMessage topic payload :: rest)
    = {| final_conn := final_conn (_db_thread_func env disk self tasks);
         delivered := delivered (_db_thread_func env disk self tasks);
         outcome := Raised e rest |}.
Proof.
  unfold _db_thread_func. intros Hout Hfail. split; [done|].
  rewrite (db_loop_app env tasks _ _ Hout). simpl. rewrite Hfail. simpl.
  by rewrite app_nil_r.
Qed.

Lemma append_failure_ends_thread_witness :
  outcome (_db_thread_func locked_once greenhouse_disk greenhouse []) = Waiting
  ∧ execute_insert locked_once
      (final_conn (_db_thread_func locked_once greenhouse_disk greenhouse []))
      "t1" "p1"
    = inl (OperationalError "database is locked")
  ∧ db_queue (save_message greenhouse "t1" "p1")
    = db_queue greenhouse ++ [SaveMessage "t1" "p1"]
  ∧ _db_thread_func locked_once greenhouse_disk greenhouse
      ([] ++ SaveMessage "t1" "p1" :: [SaveMessage "t2" "p2"; GetMessages 0])
    = {| final_conn := final_conn (_db_thread_func locked_once greenhouse_disk greenhouse []);
         delivered := delivered (_db_thread_func locked_once greenhouse_disk greenhouse []);
         outcome := Raised (OperationalError "database is locked")
                      [SaveMessage "t2" "p2"; GetMessages 0] |}.
Proof.
  split; [reflexivity|]. split; [reflexivity|].
  apply (append_failure_ends_thread locked_once greenhouse_disk greenhouse []
           [SaveMessage "t2" "p2"; GetMessages 0] "t1" "p1"); reflexivity.
Defined.

(** A failed append is fatal to the thread: the first [INSERT] finds the
    database locked, and the append and the query queued behind it are never
    processed, so that the caller of [get_messages] waits for ever; a loop
    that dropped the record and went on would have answered the query with
    the second message. *)
Lemma append_failure_is_fatal :
  execute_insert locked_once (sqlite3_connect greenhouse_disk (db_path greenhouse))
    "t1" "p1"
  = inl (OperationalError "database is locked")
  ∧ _db_thread_func locked_once greenhouse_disk greenhouse
      [SaveMessage "t1" "p1"; SaveMessage "t2" "p2"; GetMessages 0]
    = {| final_conn := sqlite3_connect greenhouse_disk (db_path greenhouse);
         delivered := [];
         outcome := Raised (OperationalError "database is locked")
                      [SaveMessage "t2" "p2"; GetMessages 0] |}
  ∧ result_queue_get
      (_db_thread_func locked_once greenhouse_disk greenhouse
         [SaveMessage "t1" "p1"; SaveMessage "t2" "p2"; GetMessages 0]) 0
    = None
  ∧ row_message <$>
      default [] (result_queue_get
        (db_loop_best_effort locked_once
           (sqlite3_connect greenhouse_disk (db_path greenhouse))
           [SaveMessage "t1" "p1"; SaveMessage "t2" "p2"; GetMessages 0]) 0)
    = [("t2", "p2")]
  ∧ _db_thread_func locked_once greenhouse_disk greenhouse
      [SaveMessage "t1" "p1"; SaveMessage "t2" "p2"; GetMessages 0]
    ≠ db_loop_best_effort locked_once
        (sqlite3_connect greenhouse_disk (db_path greenhouse))
        [SaveMessage "t1" "p1"; SaveMessage "t2" "p2"; GetMessages 0].
Proof.
  repeat split; try reflexivity.
  intros H. apply (f_equal outcome) in H. vm_compute in H. discriminate H.
Qed.

(** ** The scenarios of the specification *)

(** The table holds the sample rule. *)
Example temperature_rule_in_table :
  data_keys (sensor_info_of "dht") !! 0%nat = Some temperature_rule.
Proof. reflexivity. Qed.

(** A temperature of 30 on the DHT data topic switches the fan on, and
    nothing else. *)
Example temperature_30_switches_fan_on :
  published
    (process_sensor_data greenhouse "/RG_7557_GreenHouse/Sensors/DHT/Data"
       (reading [("Temperature", num 30)]) []).1
  = [(fan_control, json_dumps [("device", "fan"); ("state", "ON")])].
Proof. reflexivity. Qed.

(** Light at 300, below 450, switches the light on. *)
Example light_300_switches_light_on :
  published
    (process_sensor_data greenhouse "/RG_7557_GreenHouse/Sensors/Light/Data"
       (reading [("Light", num 300)]) []).1
  = [("/RG_7557_GreenHouse/Devices/Light/Control",
      json_dumps [("device", "light"); ("state", "ON")])].
Proof. reflexivity. Qed.

(** Both rules of the DHT sensor fire, temperature first, whatever the order
    of the keys of the reading. *)
Example dht_both_rules_in_table_order :
  fst <$> published
    (process_sensor_data greenhouse "/RG_7557_GreenHouse/Sensors/DHT/Data"
       (reading [("Humidity", num 70); ("Temperature", num 30)]) []).1
  = [fan_control; "/RG_7557_GreenHouse/Devices/Dehumidifier/Control"].
Proof. reflexivity. Qed.

(** A command for the light sensor goes to the control topic of the sensor. *)
Example light_off_command :
  send_control_message greenhouse "light" "OFF" []
  = ([Publish "/RG_7557_GreenHouse/Sensors/Light/Control"
        (json_dumps [("sensor", "light"); ("command", "OFF")])],
     inr tt).
Proof. reflexivity. Qed.

(** What [json.dumps] writes: quotes around keys and values, a space after
    the colon and after the comma. *)
Example json_dumps_fan :
  json_dumps [("device", "fan"); ("state", "ON")]
  = "{" +:+ json_str "device" +:+ ": " +:+ json_str "fan" +:+ ", "
        +:+ json_str "state" +:+ ": " +:+ json_str "ON" +:+ "}"
  ∧ String.length (json_dumps [("device", "fan"); ("state", "ON")]) = 32%nat
  ∧ json_escape (String dquote (String backslash (String "010"%char EmptyString)))
    = String backslash (String dquote (String backslash (String backslash "\n")))
  ∧ json_escape (String "127"%char EmptyString) = "\u007f".
Proof. repeat split; reflexivity. Qed.

(** Two appends and a query on a database file: the query is answered with
    both messages, in the order they were queued. *)
Example two_appends_then_query :
  row_message <$>
    default [] (result_queue_get
      (_db_thread_func steady greenhouse_disk
         (get_messages (save_message (save_message greenhouse "t1" "p1") "t2" "p2") 0)
         (db_queue
            (get_messages (save_message (save_message greenhouse "t1" "p1") "t2" "p2") 0)))
      0)
  = [("t1", "p1"); ("t2", "p2")].
Proof. reflexivity. Qed.

(** With the default [db_path], the connection of the thread opens a
    database of its own, in which [create_tables] never ran: the first task
    raises. *)
Example default_db_path_has_no_table :
  messages (conn default_manager) = Some []
  ∧ _db_thread_func steady ∅ default_manager [SaveMessage "t1" "p1"; GetMessages 0]
    = {| final_conn := {| messages := None; statements := 0 |};
         delivered := [];
         outcome := Raised (OperationalError "no such table: messages")
                      [GetMessages 0] |}.
Proof. split; reflexivity. Qed.

(** * Further properties of the code *)

(** ** Rule evaluation *)

(** X1.  When the field of a rule is in the reading with a value below the
    threshold, the rule announces it and publishes [below_action] when there
    is one, and nothing when there is none; [above_action] plays no part. *)
Theorem value_below_threshold_emits_below_action
    (self : DataManager) (client : MqttClient) (sensor_name : string)
    (message_data : gmap string number) (sensor_handled : bool)
    (data_key_info : DataKeyInfo) (sensor_value : number) (w : list Event) :
  mqtt_client self = Some client →
  message_data !! data_key data_key_info = Some sensor_value →
  num_lt sensor_value (threshold data_key_info) = true →
  process_data_key self sensor_name message_data sensor_handled data_key_info w
  = (w ++ Print ("Sensor value below threshold for " +:+ sensor_name)
         :: match below_action data_key_info with
            | Some a => [Publish (topic a)
                           (json_dumps [("device", device a); ("state", state a)])]
            | None => []
            end,
     inr true).
Proof.
  intros Hclient Hget Hlt.
  assert (num_gt sensor_value (threshold data_key_info) = false) as Hgt
    by (apply (num_gt_not_lt (threshold data_key_info) sensor_value), Hlt).
  unfold process_data_key, select_action. rewrite Hget, Hgt, Hlt, Hclient.
  io_unfold. destruct (below_action data_key_info) as [a|]; simpl.
  - by rewrite <- app_assoc.
  - done.
Qed.

Lemma value_below_threshold_emits_below_action_witness :
  mqtt_client greenhouse = Some broker
  ∧ reading [("Temperature", num 15)] !! data_key thermostat_rule = Some (num 15)
  ∧ num_lt (num 15) (threshold thermostat_rule) = true
  ∧ process_data_key greenhouse "dht" (reading [("Temperature", num 15)])
      false thermostat_rule []
    = ([] ++ Print ("Sensor value below threshold for " +:+ "dht")
          :: match below_action thermostat_rule with
             | Some a => [Publish (topic a)
                            (json_dumps [("device", device a); ("state", state a)])]
             | None => []
             end,
       inr true).
Proof.
  split; [reflexivity|]. split; [reflexivity|]. split; [reflexivity|].
  apply (value_below_threshold_emits_below_action greenhouse broker "dht"
           (reading [("Temperature", num 15)]) false thermostat_rule (num 15) []);
    reflexivity.
Defined.

(** One rule, with or without a client: what is published, and how the rule
    ends. *)
Lemma process_data_key_run
    (self : DataManager) (sensor_name : string) (message_data : gmap string number)
    (sensor_handled : bool) (r : DataKeyInfo) (w : list Event) :
  ∃ w',
    process_data_key self sensor_name message_data sensor_handled r w
    = (w', match mqtt_client self, rule_emission message_data r with
           | None, Some _ => inl no_client_error
           | _, _ => inr (sensor_handled || field_present message_data r)
           end)
    ∧ published w'
      = published w ++ match mqtt_client self with
                       | Some _ => option_list (rule_emission message_data r)
                       | None => []
                       end.
Proof.
  unfold process_data_key, rule_emission, select_action, field_present.
  destruct (message_data !! data_key r) as [v|]; simpl.
  2: { exists w. rewrite orb_false_r.
       destruct (mqtt_client self); by rewrite app_nil_r. }
  rewrite ?orb_true_r. io_unfold. unfold no_client_error.
  destruct (num_gt v (threshold r)); simpl.
  { destruct (above_action r) as [a|], (mqtt_client self) as [c|]; simpl;
      (eexists; split; [reflexivity|]);
      rewrite ?published_app; simpl; by rewrite ?app_nil_r, <- ?app_assoc. }
  destruct (num_lt v (threshold r)); simpl.
  { destruct (below_action r) as [a|], (mqtt_client self) as [c|]; simpl;
      (eexists; split; [reflexivity|]);
      rewrite ?published_app; simpl; by rewrite ?app_nil_r, <- ?app_assoc. }
  exists w. destruct (mqtt_client self); by rewrite app_nil_r.
Qed.

(** The loop over a list of rules. *)
Lemma for_each_data_keys_run
    (self : DataManager) (sensor_name : string) (message_data : gmap string number)
    (rules : list DataKeyInfo) :
  ∀ (sensor_handled : bool) (w : list Event),
  ∃ w',
    for_each (process_data_key self sensor_name message_data) rules sensor_handled w
    = (w', match mqtt_client self, omap (rule_emission message_data) rules with
           | None, _ :: _ => inl no_client_error
           | _, _ => inr (sensor_handled || existsb (field_present message_data) rules)
           end)
    ∧ published w'
      = published w ++ match mqtt_client self with
                       | Some _ => omap (rule_emission message_data) rules
                       | None => []
                       end.
Proof.
  induction rules as [|r rules IH]; intros h w.
  - exists w. simpl. rewrite orb_false_r.
    destruct (mqtt_client self); by rewrite app_nil_r.
  - destruct (process_data_key_run self sensor_name message_data h r w)
      as (w1 & Hstep & Hpub1).
    destruct (IH (h || field_present message_data r) w1) as (w2 & Hrest & Hpub2).
    simpl. unfold mbind, IO_bind, io_bind. rewrite Hstep.
    destruct (mqtt_client self) as [c|] eqn:Hc.
    + exists w2. rewrite Hrest. split.
      * by rewrite orb_assoc.
      * rewrite Hpub2, Hpub1, <- app_assoc.
        by destruct (rule_emission message_data r).
    + destruct (rule_emission message_data r) as [em|] eqn:Hem.
      * exists w1. split; [done|]. by rewrite Hpub1.
      * exists w2. rewrite Hrest. split.
        -- by rewrite orb_assoc.
        -- by rewrite Hpub2, Hpub1, !app_nil_r.
Qed.

(** The loop over the entries of a table. *)
Lemma for_each_sensors_run
    (self : DataManager) (topic : string) (message_data : gmap string number)
    (actions : list (string * Entry)) :
  ∀ (sensor_handled : bool) (w : list Event),
  ∃ w',
    for_each (process_sensor self topic message_data) actions sensor_handled w
    = (w', match mqtt_client self,
                 omap (rule_emission message_data) (matched_rules actions topic) with
           | None, _ :: _ => inl no_client_error
           | _, _ => inr (sensor_handled
                          || existsb (field_present message_data)
                               (matched_rules actions topic))
           end)
    ∧ published w'
      = published w ++ match mqtt_client self with
                       | Some _ => omap (rule_emission message_data)
                                     (matched_rules actions topic)
                       | None => []
                       end.
Proof.
  induction actions as [|[name e] actions IH]; intros h w.
  - exists w. simpl. rewrite orb_false_r.
    destruct (mqtt_client self); by rewrite app_nil_r.
  - set (rules := if String.eqb name "device_control_topics" then []
                  else if bool_decide (get_data_topic e = Some topic)
                       then get_data_keys e else []).
    assert (process_sensor self topic message_data h (name, e) w
            = for_each (process_data_key self name message_data) rules h w) as Hbody.
    { unfold process_sensor, rules.
      destruct (String.eqb name "device_control_topics"); [done|].
      by destruct (bool_decide (get_data_topic e = Some topic)). }
    assert (matched_rules ((name, e) :: actions) topic
            = rules ++ matched_rules actions topic) as ->
      by (unfold matched_rules; by rewrite bind_cons).
    destruct (for_each_data_keys_run self name message_data rules h w)
      as (w1 & Hstep & Hpub1).
    destruct (IH (h || existsb (field_present message_data) rules) w1)
      as (w2 & Hrest & Hpub2).
    cbn [for_each]. unfold mbind, IO_bind, io_bind. rewrite Hbody, Hstep.
    rewrite omap_app, existsb_app.
    destruct (mqtt_client self) as [c|] eqn:Hc.
    + exists w2. rewrite Hrest. split.
      * by rewrite orb_assoc.
      * by rewrite Hpub2, Hpub1, <- app_assoc.
    + destruct (omap (rule_emission message_data) rules) as [|em ems] eqn:Hem.
      * exists w2. rewrite Hrest. simpl. split.
        -- by rewrite orb_assoc.
        -- by rewrite Hpub2, Hpub1, !app_nil_r.
      * exists w1. split; [done|]. by rewrite Hpub1.
Qed.

(** X3.  Without a client, on a reading whose values are numbers,
    [process_sensor_data] publishes nothing; it returns when no matched rule
    has anything to emit, and raises the [AttributeError] of the first
    emission otherwise. *)
Theorem process_sensor_data_without_client
    (self : DataManager) (topic : string) (message_data : gmap string number)
    (w : list Event) :
  mqtt_client self = None →
  ∃ w',
    process_sensor_data self topic message_data w
    = (w', match omap (rule_emission message_data) (matched_rules SENSOR_ACTIONS topic) with
           | [] => inr tt
           | _ :: _ => inl no_client_error
           end)
    ∧ published w' = published w.
Proof.
  intros Hclient. unfold process_sensor_data.
  destruct (for_each_sensors_run self topic message_data SENSOR_ACTIONS false w)
    as (w1 & Hloop & Hpub).
  rewrite Hclient in Hloop, Hpub. rewrite app_nil_r in Hpub.
  unfold mbind, IO_bind, io_bind. rewrite Hloop.
  destruct (omap (rule_emission message_data) (matched_rules SENSOR_ACTIONS topic)).
  2: { by exists w1. }
  destruct (negb _); [|by exists w1].
  destruct (negb _); [|by exists w1].
  eexists. split; [reflexivity|]. rewrite published_app, Hpub. simpl.
  by rewrite app_nil_r.
Qed.

Lemma process_sensor_data_without_client_witness :
  mqtt_client default_manager = None
  ∧ ∃ w',
      process_sensor_data default_manager "/RG_7557_GreenHouse/Sensors/DHT/Data"
        (reading [("Temperature", num 30)]) []
      = (w', match omap (rule_emission (reading [("Temperature", num 30)]))
                     (matched_rules SENSOR_ACTIONS "/RG_7557_GreenHouse/Sensors/DHT/Data") with
             | [] => inr tt
             | _ :: _ => inl no_client_error
             end)
      ∧ published w' = published [].
Proof.
  split; [reflexivity|].
  apply (process_sensor_data_without_client default_manager
           "/RG_7557_GreenHouse/Sensors/DHT/Data" (reading [("Temperature", num 30)]) []).
  reflexivity.
Defined.

Lemma for_each_data_keys_absent
    (self : DataManager) (sensor_name : string) (message_data : gmap string number)
    (rules : list DataKeyInfo) (sensor_handled : bool) (w : list Event) :
  existsb (field_present message_data) rules = false →
  for_each (process_data_key self sensor_name message_data) rules sensor_handled w
  = (w, inr sensor_handled).
Proof.
  induction rules as [|r rules IH]; [done|]. simpl.
  intros [Hr Hrules]%orb_false_iff.
  rewrite (io_bind_inr _ _ w w sensor_handled); [by apply IH|].
  apply process_data_key_absent. unfold field_present in Hr.
  apply bool_decide_eq_false in Hr. by apply eq_None_not_Some.
Qed.

Lemma for_each_sensors_absent
    (self : DataManager) (topic : string) (message_data : gmap string number)
    (actions : list (string * Entry)) (sensor_handled : bool) (w : list Event) :
  existsb (field_present message_data) (matched_rules actions topic) = false →
  for_each (process_sensor self topic message_data) actions sensor_handled w
  = (w, inr sensor_handled).
Proof.
  induction actions as [|[name e] actions IH]; [done|].
  unfold matched_rules. rewrite bind_cons, existsb_app.
  intros [He Hrest]%orb_false_iff. cbn [for_each].
  rewrite (io_bind_inr _ _ w w sensor_handled); [by apply IH|].
  unfold process_sensor. simpl in He.
  destruct (String.eqb name "device_control_topics"); [done|].
  destruct (bool_decide (get_data_topic e = Some topic)); [|done].
  by apply for_each_data_keys_absent.
Qed.

(** X4.  A message none of whose matched rules finds its field in the reading
    (the topic is no data topic at all, or the reading has none of the
    fields of the sensor, as an empty reading) is reported as an unknown
    sensor topic, unless the topic is in [sensor_control_topics]; nothing
    else happens. *)
Theorem reading_without_fields_is_unknown_topic
    (self : DataManager) (topic : string) (message_data : gmap string number)
    (w : list Event) :
  existsb (field_present message_data) (matched_rules SENSOR_ACTIONS topic) = false →
  process_sensor_data self topic message_data w
  = (if bool_decide (Some topic ∈ sensor_control_topics self) then w
     else w ++ [Print ("Unknown sensor topic: " +:+ topic)],
     inr tt).
Proof.
  intros Habsent. unfold process_sensor_data.
  rewrite (io_bind_inr _ _ w w false)
    by (by apply for_each_sensors_absent).
  simpl. by destruct (bool_decide (Some topic ∈ sensor_control_topics self)).
Qed.

Lemma reading_without_fields_is_unknown_topic_witness :
  existsb (field_present (reading [("Pressure", num 1013)]))
    (matched_rules SENSOR_ACTIONS "/RG_7557_GreenHouse/Sensors/DHT/Data") = false
  ∧ process_sensor_data greenhouse "/RG_7557_GreenHouse/Sensors/DHT/Data"
      (reading [("Pressure", num 1013)]) []
    = (if bool_decide (Some "/RG_7557_GreenHouse/Sensors/DHT/Data"
                       ∈ sensor_control_topics greenhouse) then []
       else [] ++ [Print ("Unknown sensor topic: "
                          +:+ "/RG_7557_GreenHouse/Sensors/DHT/Data")],
       inr tt).
Proof.
  split; [reflexivity|].
  apply (reading_without_fields_is_unknown_topic greenhouse
           "/RG_7557_GreenHouse/Sensors/DHT/Data" (reading [("Pressure", num 1013)]) []).
  reflexivity.
Defined.

(** A reading on a data topic that has none of the fields of its sensor is
    reported as an unknown sensor topic. *)
Example known_data_topic_reported_unknown :
  process_sensor_data greenhouse "/RG_7557_GreenHouse/Sensors/DHT/Data"
    (reading [("Pressure", num 1013)]) []
  = ([Print "Unknown sensor topic: /RG_7557_GreenHouse/Sensors/DHT/Data"], inr tt).
Proof. reflexivity. Qed.

(** ** The topic sets of [__init__] *)

Lemma elem_of_add_action_topics (r : DataKeyInfo) (acc : gset string) (t : string) :
  t ∈ (let acc1 := match above_action r with
                   | Some a => {[ topic a ]} ∪ acc
                   | None => acc
                   end in
       match below_action r with
       | Some a => {[ topic a ]} ∪ acc1
       | None => acc1
       end)
  ↔ t ∈ acc ∨ t ∈ action_topics r.
Proof.
  unfold action_topics.
  destruct (above_action r) as [a|], (below_action r) as [b|]; simpl;
    rewrite ?elem_of_union, ?elem_of_singleton, ?elem_of_cons, ?elem_of_nil; tauto.
Qed.

Lemma elem_of_foldl_data_keys (rules : list DataKeyInfo) :
  ∀ (acc : gset string) (t : string),
  t ∈ foldl (λ acc' data_key_info,
        let acc1 := match above_action data_key_info with
                    | Some a => {[ topic a ]} ∪ acc'
                    | None => acc'
                    end in
        match below_action data_key_info with
        | Some a => {[ topic a ]} ∪ acc1
        | None => acc1
        end) acc rules
  ↔ t ∈ acc ∨ ∃ r, r ∈ rules ∧ t ∈ action_topics r.
Proof.
  induction rules as [|r rules IH]; intros acc t; cbn [foldl].
  - split; [by left|]. intros [H|(r & Hr & _)]; [done|]. by apply elem_of_nil in Hr.
  - rewrite IH, elem_of_add_action_topics. split.
    + intros [[H|H]|(r' & Hr' & Ht)].
      * by left.
      * right. exists r. split; [by left|done].
      * right. exists r'. split; [by right|done].
    + intros [H|(r' & Hr' & Ht)]; [by left; left|].
      apply elem_of_cons in Hr' as [->|Hr'].
      * left. by right.
      * right. by exists r'.
Qed.

Lemma elem_of_init_control_topics_acc (actions : list (string * Entry)) :
  ∀ (acc : gset string) (t : string),
  t ∈ foldl (λ acc item,
        foldl (λ acc' data_key_info,
          let acc1 := match above_action data_key_info with
                      | Some a => {[ topic a ]} ∪ acc'
                      | None => acc'
                      end in
          match below_action data_key_info with
          | Some a => {[ topic a ]} ∪ acc1
          | None => acc1
          end) acc (get_data_keys item.2)) acc actions
  ↔ t ∈ acc ∨ ∃ item r, item ∈ actions ∧ r ∈ get_data_keys item.2 ∧ t ∈ action_topics r.
Proof.
  induction actions as [|item actions IH]; intros acc t; simpl.
  - split; [by left|]. intros [H|(i & r & Hi & _)]; [done|]. by apply elem_of_nil in Hi.
  - rewrite IH, elem_of_foldl_data_keys. split.
    + intros [[H|(r & Hr & Ht)]|(i & r & Hi & Hr & Ht)].
      * by left.
      * right. exists item, r. split; [by left|done].
      * right. exists i, r. split; [by right|done].
    + intros [H|(i & r & Hi & Hr & Ht)]; [by left; left|].
      apply elem_of_cons in Hi as [->|Hi].
      * left. right. by exists r.
      * right. by exists i, r.
Qed.

(** A topic is in [control_topics] exactly when it is the topic of an action
    of a rule of the table. *)
Lemma elem_of_init_control_topics (actions : list (string * Entry)) (t : string) :
  t ∈ init_control_topics actions
  ↔ ∃ item r, item ∈ actions ∧ r ∈ get_data_keys item.2 ∧ t ∈ action_topics r.
Proof.
  unfold init_control_topics. rewrite elem_of_init_control_topics_acc.
  split; [|by right]. intros [H|H]; [|done]. by apply elem_of_empty in H.
Qed.

Lemma elem_of_init_sensor_control_topics_acc (actions : list (string * Entry)) :
  ∀ (acc : gset (option string)) (o : option string),
  o ∈ foldl (λ acc item, {[ get_control_topic item.2 ]} ∪ acc) acc actions
  ↔ o ∈ acc ∨ ∃ item, item ∈ actions ∧ get_control_topic item.2 = o.
Proof.
  induction actions as [|item actions IH]; intros acc o; simpl.
  - split; [by left|]. intros [H|(i & Hi & _)]; [done|]. by apply elem_of_nil in Hi.
  - rewrite IH, elem_of_union, elem_of_singleton. split.
    + intros [[->|H]|(i & Hi & Ho)].
      * right. exists item. split; [by left|done].
      * by left.
      * right. exists i. split; [by right|done].
    + intros [H|(i & Hi & Ho)]; [by left; right|].
      apply elem_of_cons in Hi as [->|Hi].
      * left. by left.
      * right. by exists i.
Qed.

(** X8.  For every rule table, the two sets the loops of [__init__] collect are
    together the control topics of the table: [sensor_control_topics] has the
    control topic of every sensor and [control_topics] the topic of every
    action. *)
Theorem init_sets_are_the_control_topics
    (actions : list (string * Entry)) (t : string) :
  t ∈ all_control_topics actions
  ↔ Some t ∈ init_sensor_control_topics actions ∨ t ∈ init_control_topics actions.
Proof.
  unfold all_control_topics, init_sensor_control_topics.
  rewrite elem_of_union, !elem_of_list_to_set, list_elem_of_omap, list_elem_of_bind.
  rewrite elem_of_init_sensor_control_topics_acc, elem_of_init_control_topics.
  split.
  - intros [(item & Hi & Hc)|(item & Ht & Hi)].
    + left. right. by exists item.
    + apply list_elem_of_bind in Ht as (r & Ht & Hr). right. by exists item, r.
  - intros [[H|(item & Hi & Hc)]|(item & r & Hi & Hr & Ht)].
    + by apply elem_of_empty in H.
    + left. by exists item.
    + right. exists item. split; [|done]. apply list_elem_of_bind. by exists r.
Qed.

(** [sensor_control_topics] holds [None] as soon as one entry of the table
    has no [control_topic], as the device dict. *)
Lemma None_in_init_sensor_control_topics (actions : list (string * Entry)) :
  None ∈ init_sensor_control_topics actions
  ↔ ∃ name d, (name, DeviceEntry d) ∈ actions.
Proof.
  unfold init_sensor_control_topics. rewrite elem_of_init_sensor_control_topics_acc.
  split.
  - intros [H|([name [s|d]] & Hi & Hc)]; [by apply elem_of_empty in H|done|].
    by exists name, d.
  - intros (name & d & Hi). right. by exists (name, DeviceEntry d).
Qed.

(** ** Where messages are published *)

Lemma emission_topic_is_action_topic
    (message_data : gmap string number) (r : DataKeyInfo) (p : string * string) :
  rule_emission message_data r = Some p → p.1 ∈ action_topics r.
Proof.
  unfold rule_emission, action_topics.
  destruct (message_data !! data_key r) as [v|]; simpl; [|done].
  destruct (num_gt v (threshold r)).
  { destruct (above_action r) as [a|]; simpl; [|done].
    intros [= <-]. simpl. rewrite ?elem_of_app, ?elem_of_cons. auto. }
  destruct (num_lt v (threshold r)); [|done].
  destruct (below_action r) as [b|]; simpl; [|done].
  intros [= <-]. simpl. rewrite ?elem_of_app, ?elem_of_cons. auto.
Qed.

Lemma matched_rule_in_table
    (actions : list (string * Entry)) (topic : string) (r : DataKeyInfo) :
  r ∈ matched_rules actions topic →
  ∃ item, item ∈ actions ∧ r ∈ get_data_keys item.2.
Proof.
  unfold matched_rules. intros (item & Hr & Hi)%list_elem_of_bind.
  exists item. split; [done|].
  destruct (String.eqb item.1 "device_control_topics"); [by apply elem_of_nil in Hr|].
  destruct (bool_decide (get_data_topic item.2 = Some topic)); [done|].
  by apply elem_of_nil in Hr.
Qed.

Lemma dict_get_elem_of {V} (d : list (string * V)) (key : string) (v : V) :
  dict_get d key = Some v → (key, v) ∈ d.
Proof.
  induction d as [|[k v'] d IH]; simpl; [done|].
  destruct (String.eqb k key) eqn:Hk.
  - intros [= ->]. apply String.eqb_eq in Hk as ->. by left.
  - intros H. right. by apply IH.
Qed.

(** What [process_sensor_data] publishes, with or without a client. *)
Lemma process_sensor_data_publications
    (self : DataManager) (topic : string) (message_data : gmap string number)
    (w : list Event) :
  published (process_sensor_data self topic message_data w).1
  = published w ++ match mqtt_client self with
                   | Some _ => omap (rule_emission message_data)
                                 (matched_rules SENSOR_ACTIONS topic)
                   | None => []
                   end.
Proof.
  unfold process_sensor_data.
  destruct (for_each_sensors_run self topic message_data SENSOR_ACTIONS false w)
    as (w1 & Hloop & Hpub).
  unfold mbind, IO_bind, io_bind. rewrite Hloop, <- Hpub.
  destruct (mqtt_client self);
    [|destruct (omap (rule_emission message_data) (matched_rules SENSOR_ACTIONS topic));
      [|done]];
    (destruct (negb _); [|done]); (destruct (negb _); [|done]);
    io_unfold; simpl; rewrite published_app; simpl; by rewrite app_nil_r.
Qed.

(** In [SENSOR_ACTIONS], the topics of the actions are neither data topics
    nor control topics of sensors, and the control topics of the sensors are
    no data topics. *)
Lemma table_topics_apart :
  init_control_topics SENSOR_ACTIONS ## all_data_topics SENSOR_ACTIONS
  ∧ set_map (D:=gset (option string)) Some
      (init_control_topics SENSOR_ACTIONS ∪ all_data_topics SENSOR_ACTIONS)
    ## init_sensor_control_topics SENSOR_ACTIONS.
Proof. split; apply (bool_decide_unpack _); vm_compute; reflexivity. Qed.

(** X6.  Whatever the topic and the reading, rule evaluation publishes on topics
    of [control_topics] only, so never on a data topic (no message it sends
    can come back as a reading) and never on the control topic of a
    sensor. *)
Theorem process_sensor_data_publishes_on_action_topics
    (disk : Disk) (path : DbPath) (client : option MqttClient) (topic : string)
    (message_data : gmap string number) (w : list Event) :
  ∃ l,
    published (process_sensor_data (__init__ disk path client).2 topic message_data w).1
    = published w ++ l
    ∧ Forall (λ p, p.1 ∈ control_topics (__init__ disk path client).2
                   ∧ (p.1 ∉ all_data_topics SENSOR_ACTIONS)
                   ∧ Some p.1 ∉ sensor_control_topics (__init__ disk path client).2) l.
Proof.
  assert (∀ self, ∃ l,
    published (process_sensor_data self topic message_data w).1 = published w ++ l
    ∧ Forall (λ p, p.1 ∈ init_control_topics SENSOR_ACTIONS) l) as Hgen.
  { intros self. eexists. split; [apply process_sensor_data_publications|].
    destruct (mqtt_client self); [|done].
    apply Forall_forall. intros p (r & Hr & Hem)%list_elem_of_omap.
    apply matched_rule_in_table in Hr as (item & Hi & Hr).
    apply elem_of_init_control_topics. exists item, r.
    split; [done|]. split; [done|]. by eapply emission_topic_is_action_topic. }
  destruct (Hgen (__init__ disk path client).2) as (l & Hl & Hall).
  exists l. split; [done|].
  destruct table_topics_apart as [Hdata Hsensor].
  assert ((__init__ disk path client).2.(control_topics)
          = init_control_topics SENSOR_ACTIONS) as -> by (by destruct path).
  assert ((__init__ disk path client).2.(sensor_control_topics)
          = init_sensor_control_topics SENSOR_ACTIONS) as -> by (by destruct path).
  eapply Forall_impl; [exact Hall|]. intros p Hp. split; [done|]. split.
  - intros Hd. by apply (Hdata p.1).
  - intros Hs. apply (Hsensor (Some p.1)); [|done].
    apply elem_of_map. exists p.1. split; [done|]. apply elem_of_union. by left.
Qed.

(** X7.  Whatever the sensor type and the command, [send_control_message]
    publishes at most one message, with the payload of the command, on the
    control topic of a sensor: never on a data topic and never on the topic
    of an actuator. *)
Theorem send_control_message_publishes_on_sensor_topics
    (self : DataManager) (sensor_type command : string) (w : list Event) :
  ∃ l,
    published (send_control_message self sensor_type command w).1 = published w ++ l
    ∧ (List.length l ≤ 1)%nat
    ∧ Forall (λ p, Some p.1 ∈ init_sensor_control_topics SENSOR_ACTIONS
                   ∧ (p.1 ∉ init_control_topics SENSOR_ACTIONS)
                   ∧ (p.1 ∉ all_data_topics SENSOR_ACTIONS)
                   ∧ p.2 = json_dumps [("sensor", sensor_type); ("command", command)]) l.
Proof.
  unfold send_control_message.
  destruct (dict_get SENSOR_ACTIONS sensor_type) as [[s|d]|] eqn:Hget; simpl.
  2,3: exists []; io_unfold; simpl; rewrite published_app; simpl;
       rewrite !app_nil_r; split; [done|]; split; [lia|done].
  destruct (mqtt_client self) as [c|]; io_unfold; simpl.
  2: { exists []. rewrite app_nil_r. split; [done|]. split; [simpl; lia|done]. }
  eexists [_]. rewrite published_app. split; [reflexivity|]. split; [simpl; lia|].
  apply Forall_singleton. simpl.
  assert (Some (control_topic s) ∈ init_sensor_control_topics SENSOR_ACTIONS) as Hin.
  { unfold init_sensor_control_topics. apply elem_of_init_sensor_control_topics_acc.
    right. exists (sensor_type, SensorEntry s). split; [|done].
    by apply dict_get_elem_of. }
  destruct table_topics_apart as [_ Hsensor].
  split; [done|]. split; [|split; [|done]].
  - intros Hc. apply (Hsensor (Some (control_topic s))); [|done].
    apply elem_of_map. exists (control_topic s). split; [done|].
    apply elem_of_union. by left.
  - intros Hd. apply (Hsensor (Some (control_topic s))); [|done].
    apply elem_of_map. exists (control_topic s). split; [done|].
    apply elem_of_union. by right.
Qed.

(** ** More on the database thread *)

(** X9.  A query whose [SELECT] raises ends the thread like a failed append:
    nothing is put on the queue of the caller, who waits for ever, and the
    tasks behind the query stay unprocessed. *)
Theorem query_failure_ends_thread
    (env : SqliteEnv) (disk : Disk) (self : DataManager) (tasks rest : list Task)
    (result_queue : nat) (e : Exn) :
  outcome (_db_thread_func env disk self tasks) = Waiting →
  execute_select env (final_conn (_db_thread_func env disk self tasks)) = inl e →
  _db_thread_func env disk self (tasks ++ GetMessages result_queue :: rest)
  = {| final_conn := final_conn (_db_thread_func env disk self tasks);
       delivered := delivered (_db_thread_func env disk self tasks);
       outcome := Raised e rest |}.
Proof.
  unfold _db_thread_func. intros Hout Hfail.
  rewrite (db_loop_app env tasks _ _ Hout). simpl. rewrite Hfail. simpl.
  by rewrite app_nil_r.
Qed.

Lemma query_failure_ends_thread_witness :
  outcome (_db_thread_func locked_once greenhouse_disk greenhouse []) = Waiting
  ∧ execute_select locked_once
      (final_conn (_db_thread_func locked_once greenhouse_disk greenhouse []))
    = inl (OperationalError "database is locked")
  ∧ _db_thread_func locked_once greenhouse_disk greenhouse
      ([] ++ GetMessages 0 :: [SaveMessage "t1" "p1"])
    = {| final_conn := final_conn (_db_thread_func locked_once greenhouse_disk greenhouse []);
         delivered := delivered (_db_thread_func locked_once greenhouse_disk greenhouse []);
         outcome := Raised (OperationalError "database is locked")
                      [SaveMessage "t1" "p1"] |}.
Proof.
  split; [reflexivity|]. split; [reflexivity|].
  apply (query_failure_ends_thread locked_once greenhouse_disk greenhouse []
           [SaveMessage "t1" "p1"] 0); reflexivity.
Defined.

(** X10.  Once a statement has raised, the thread is gone: whatever is queued
    later is never processed, the database and the answers given stay as
    they were. *)
Theorem dead_thread_processes_nothing
    (env : SqliteEnv) (disk : Disk) (self : DataManager) (tasks later : list Task)
    (e : Exn) (unprocessed : list Task) :
  outcome (_db_thread_func env disk self tasks) = Raised e unprocessed →
  _db_thread_func env disk self (tasks ++ later)
  = {| final_conn := final_conn (_db_thread_func env disk self tasks);
       delivered := delivered (_db_thread_func env disk self tasks);
       outcome := Raised e (unprocessed ++ later) |}.
Proof.
  unfold _db_thread_func. generalize (sqlite3_connect disk (db_path self)).
  induction tasks as [|[topic payload|q] tasks IH]; intros c; simpl.
  - done.
  - destruct (execute_insert env c topic payload) as [e'|c']; simpl.
    + by intros [= -> ->].
    + apply IH.
  - destruct (execute_select env c) as [e'|[c' rows]]; simpl.
    + by intros [= -> ->].
    + intros H. by rewrite (IH c' H).
Qed.

Lemma dead_thread_processes_nothing_witness :
  outcome (_db_thread_func locked_once greenhouse_disk greenhouse [SaveMessage "t1" "p1"])
  = Raised (OperationalError "database is locked") []
  ∧ _db_thread_func locked_once greenhouse_disk greenhouse
      ([SaveMessage "t1" "p1"] ++ [SaveMessage "t2" "p2"; GetMessages 0])
    = {| final_conn := final_conn (_db_thread_func locked_once greenhouse_disk greenhouse
                                     [SaveMessage "t1" "p1"]);
         delivered := delivered (_db_thread_func locked_once greenhouse_disk greenhouse
                                   [SaveMessage "t1" "p1"]);
         outcome := Raised (OperationalError "database is locked")
                      ([] ++ [SaveMessage "t2" "p2"; GetMessages 0]) |}.
Proof.
  split; [reflexivity|].
  apply (dead_thread_processes_nothing locked_once greenhouse_disk greenhouse
           [SaveMessage "t1" "p1"] [SaveMessage "t2" "p2"; GetMessages 0]).
  reflexivity.
Defined.

(** X11.  While the thread lives, every query is answered exactly once, in the
    order of the queue. *)
Theorem every_query_is_answered_once
    (env : SqliteEnv) (disk : Disk) (self : DataManager) (tasks : list Task) :
  outcome (_db_thread_func env disk self tasks) = Waiting →
  (delivered (_db_thread_func env disk self tasks)).*1 = queries tasks.
Proof.
  unfold _db_thread_func. generalize (sqlite3_connect disk (db_path self)).
  induction tasks as [|[topic payload|q] tasks IH]; intros c; simpl.
  - done.
  - destruct (execute_insert env c topic payload) as [e'|c']; [done|apply IH].
  - destruct (execute_select env c) as [e'|[c' rows]]; [done|]. simpl.
    intros H. f_equal. by apply IH.
Qed.

Lemma every_query_is_answered_once_witness :
  outcome (_db_thread_func steady greenhouse_disk greenhouse
             [GetMessages 7; SaveMessage "t1" "p1"; GetMessages 8]) = Waiting
  ∧ (delivered (_db_thread_func steady greenhouse_disk greenhouse
                  [GetMessages 7; SaveMessage "t1" "p1"; GetMessages 8])).*1
    = queries [GetMessages 7; SaveMessage "t1" "p1"; GetMessages 8].
Proof.
  split; [reflexivity|].
  apply (every_query_is_answered_once steady greenhouse_disk greenhouse
           [GetMessages 7; SaveMessage "t1" "p1"; GetMessages 8]).
  reflexivity.
Defined.

Lemma insert_by_id_sublist (row : Row) (rows : list Row) :
  rows `sublist_of` insert_by_id row rows.
Proof.
  induction rows as [|r rows IH]; simpl.
  - by apply sublist_cons.
  - destruct (row_id row <? row_id r)%Z.
    + by apply sublist_cons.
    + by apply sublist_skip.
Qed.

Lemma insert_row_sublist
    (env : SqliteEnv) (n : nat) (rows rows' : list Row) (topic payload : string) :
  insert_row env n rows topic payload = Some rows' → rows `sublist_of` rows'.
Proof.
  unfold insert_row. destruct (next_rowid rows <=? max_rowid)%Z.
  - intros [= <-]. by apply sublist_inserts_r.
  - destruct (random_rowid env n) as [id|]; [|done].
    destruct (_ && _); [|done]. intros [= <-]. apply insert_by_id_sublist.
Qed.

(** X12.  The thread never removes, changes or reorders a row: the table it
    found, the answers to successive queries and the table it ends with form
    a chain in which each one is contained, rows in the same order, in all
    those after it, whatever statements fail. *)
Theorem answers_only_grow
    (env : SqliteEnv) (disk : Disk) (self : DataManager) (init : list Row)
    (tasks : list Task) :
  messages (sqlite3_connect disk (db_path self)) = Some init →
  ∃ final,
    messages (final_conn (_db_thread_func env disk self tasks)) = Some final
    ∧ StronglySorted sublist
        (init :: (delivered (_db_thread_func env disk self tasks)).*2 ++ [final]).
Proof.
  unfold _db_thread_func. generalize (sqlite3_connect disk (db_path self)).
  assert (∀ l : list Row, StronglySorted sublist [l; l]) as Hrefl.
  { intros l. apply StronglySorted_cons. split; [by apply Forall_singleton|].
    apply StronglySorted_cons. split; constructor. }
  revert init.
  induction tasks as [|[topic payload|q] tasks IH]; intros init c Hc; simpl.
  - by exists init.
  - unfold execute_insert. destruct (fault env (statements c)); [by exists init|].
    rewrite Hc.
    destruct (insert_row env (statements c) init topic payload) as [rows'|] eqn:Hins;
      [|by exists init].
    match goal with |- context [db_loop env ?c' tasks] =>
      destruct (IH _ c' eq_refl) as (final & Hfinal & Hsorted) end.
    exists final. split; [done|].
    apply StronglySorted_cons in Hsorted as [Hall Hsorted].
    apply StronglySorted_cons. split; [|done].
    eapply Forall_impl; [exact Hall|]. intros l Hl.
    etrans; [|exact Hl]. by eapply insert_row_sublist.
  - unfold execute_select. destruct (fault env (statements c)); [by exists init|].
    rewrite Hc. simpl.
    match goal with |- context [db_loop env ?c' tasks] =>
      destruct (IH init c' eq_refl) as (final & Hfinal & Hsorted) end.
    exists final. split; [done|].
    apply StronglySorted_cons. split; [|done].
    apply Forall_cons. split; [done|].
    by apply StronglySorted_cons in Hsorted as [Hall _].
Qed.

Lemma answers_only_grow_witness :
  messages (sqlite3_connect greenhouse_disk (db_path greenhouse)) = Some []
  ∧ ∃ final,
      messages (final_conn (_db_thread_func steady greenhouse_disk greenhouse
                  [SaveMessage "t1" "p1"; GetMessages 0; SaveMessage "t2" "p2";
                   GetMessages 1]))
      = Some final
      ∧ StronglySorted sublist
          ([] :: (delivered (_db_thread_func steady greenhouse_disk greenhouse
                    [SaveMessage "t1" "p1"; GetMessages 0; SaveMessage "t2" "p2";
                     GetMessages 1])).*2 ++ [final]).
Proof.
  split; [reflexivity|].
  apply (answers_only_grow steady greenhouse_disk greenhouse []
           [SaveMessage "t1" "p1"; GetMessages 0; SaveMessage "t2" "p2"; GetMessages 1]).
  reflexivity.
Defined.

Lemma elem_of_insert_by_id (row x : Row) (rows : list Row) :
  x ∈ insert_by_id row rows ↔ x = row ∨ x ∈ rows.
Proof.
  induction rows as [|r rows IH]; simpl.
  - rewrite list_elem_of_singleton, elem_of_nil. tauto.
  - destruct (row_id row <? row_id r)%Z.
    + by rewrite elem_of_cons.
    + rewrite !elem_of_cons, IH. tauto.
Qed.

Lemma insert_by_id_ascending (row : Row) (rows : list Row) :
  forallb (λ r, negb (row_id r =? row_id row)%Z) rows = true →
  ascending_ids rows → ascending_ids (insert_by_id row rows).
Proof.
  unfold ascending_ids. induction rows as [|r rows IH]; simpl.
  - intros _ _. apply StronglySorted_cons. split; constructor.
  - intros [Hr Hrows]%andb_true_iff [Hall Hsorted]%StronglySorted_cons.
    apply negb_true_iff, Z.eqb_neq in Hr.
    destruct (row_id row <? row_id r)%Z eqn:Hlt.
    + apply Z.ltb_lt in Hlt. apply StronglySorted_cons. split.
      * apply Forall_cons. split; [done|].
        eapply Forall_impl; [exact Hall|]. simpl. intros x Hx. lia.
      * by apply StronglySorted_cons.
    + apply Z.ltb_ge in Hlt. apply StronglySorted_cons. split; [|by apply IH].
      apply Forall_forall. intros x [->|Hx]%elem_of_insert_by_id; [lia|].
      by eapply Forall_forall in Hall.
Qed.

Lemma insert_row_ascending
    (env : SqliteEnv) (n : nat) (rows rows' : list Row) (topic payload : string) :
  insert_row env n rows topic payload = Some rows' →
  ascending_ids rows → ascending_ids rows'.
Proof.
  unfold insert_row. destruct (next_rowid rows <=? max_rowid)%Z.
  - intros [= <-] Hrows. apply StronglySorted_app_2; [|done|].
    + intros r1 r2 Hr1 ->%list_elem_of_singleton. simpl. by apply next_rowid_fresh.
    + apply StronglySorted_cons. split; constructor.
  - destruct (random_rowid env n) as [id|]; [|done].
    destruct (_ && _) eqn:Hvalid; [|done].
    apply andb_true_iff in Hvalid as [_ Hunused].
    intros [= <-]. by apply insert_by_id_ascending.
Qed.

(** X13.  The thread keeps the [id]s of a table strictly ascending in the
    order of the scan, and with them distinct: when the table it finds is in
    ascending [id], so are the table it ends with and every answer it
    gives, also when SQLite has to draw an [id] at random. *)
Theorem ids_stay_ascending
    (env : SqliteEnv) (disk : Disk) (self : DataManager) (init : list Row)
    (tasks : list Task) :
  messages (sqlite3_connect disk (db_path self)) = Some init →
  ascending_ids init →
  ∃ final,
    messages (final_conn (_db_thread_func env disk self tasks)) = Some final
    ∧ ascending_ids final
    ∧ Forall (λ d, ascending_ids d.2) (delivered (_db_thread_func env disk self tasks)).
Proof.
  unfold _db_thread_func. generalize (sqlite3_connect disk (db_path self)).
  revert init.
  induction tasks as [|[topic payload|q] tasks IH]; intros init c Hc Hinit; simpl.
  - by exists init.
  - unfold execute_insert. destruct (fault env (statements c)); [by exists init|].
    rewrite Hc.
    destruct (insert_row env (statements c) init topic payload) as [rows'|] eqn:Hins;
      [|by exists init].
    match goal with |- context [db_loop env ?c' tasks] =>
      apply (IH _ c' eq_refl) end.
    by eapply insert_row_ascending.
  - unfold execute_select. destruct (fault env (statements c)); [by exists init|].
    rewrite Hc. simpl.
    match goal with |- context [db_loop env ?c' tasks] =>
      destruct (IH init c' eq_refl Hinit) as (final & Hfinal & Hasc & Hall) end.
    exists final. split; [done|]. split; [done|]. by apply Forall_cons.
Qed.

Lemma ids_stay_ascending_witness :
  messages (sqlite3_connect full_disk (db_path full_manager)) = Some [last_row]
  ∧ ascending_ids [last_row]
  ∧ ∃ final,
      messages (final_conn (_db_thread_func lucky full_disk full_manager
                  [SaveMessage "t1" "p1"; SaveMessage "t2" "p2"; GetMessages 0]))
      = Some final
      ∧ ascending_ids final
      ∧ Forall (λ d, ascending_ids d.2)
          (delivered (_db_thread_func lucky full_disk full_manager
             [SaveMessage "t1" "p1"; SaveMessage "t2" "p2"; GetMessages 0])).
Proof.
  split; [reflexivity|].
  split; [apply StronglySorted_cons; split; constructor|].
  apply (ids_stay_ascending lucky full_disk full_manager [last_row]
           [SaveMessage "t1" "p1"; SaveMessage "t2" "p2"; GetMessages 0]).
  - reflexivity.
  - apply StronglySorted_cons. split; constructor.
Defined.

(** On a table that holds the largest [id], the new rows come before the old
    one, and not in the order they were added. *)
Example full_table_loses_insertion_order :
  row_message <$>
    default [] (result_queue_get
      (_db_thread_func lucky full_disk full_manager
         [SaveMessage "t1" "p1"; SaveMessage "t2" "p2"; GetMessages 0]) 0)
  = [("t2", "p2"); ("t1", "p1"); ("old", "row")].
Proof. reflexivity. Qed.

(** X14.  A [DataManager] made with the database [":memory:"] (the default) never
    stores or returns anything: whatever files exist and however SQLite
    behaves, the thread raises on the first task it takes, since its own
    connection opens a database without the table [messages]. *)
Theorem in_memory_thread_dies_on_first_task
    (env : SqliteEnv) (disk : Disk) (client : option MqttClient)
    (task : Task) (rest : list Task) :
  ∃ e,
    _db_thread_func env (__init__ disk InMemory client).1
      (__init__ disk InMemory client).2 (task :: rest)
    = {| final_conn := {| messages := None; statements := 0 |};
         delivered := [];
         outcome := Raised e rest |}.
Proof.
  unfold _db_thread_func. simpl.
  destruct task as [topic payload|q]; simpl;
    unfold execute_insert, execute_select; simpl;
    destruct (fault env 0); by eexists.
Qed.

(** ** From [save_message] to [get_messages] *)





(** ** What a handled reading prints *)

Lemma for_each_events {A S} (body : S → A → IO S) (P : Event → bool) :
  (∀ s x w, ∃ evs, (body s x w).1 = w ++ evs ∧ forallb P evs = true) →
  ∀ l s w, ∃ evs, (for_each body l s w).1 = w ++ evs ∧ forallb P evs = true.
Proof.
  intros Hbody. induction l as [|x l IH]; intros s w; simpl.
  - exists []. by rewrite app_nil_r.
  - unfold mbind, IO_bind, io_bind.
    destruct (Hbody s x w) as (evs1 & Hw1 & Hevs1).
    destruct (body s x w) as [w1 [e|s1]]; simpl in *; [by exists evs1|].
    destruct (IH s1 w1) as (evs2 & Hw2 & Hevs2).
    exists (evs1 ++ evs2). rewrite Hw2, Hw1, <- app_assoc. split; [done|].
    rewrite forallb_app. by rewrite Hevs1, Hevs2.
Qed.

Lemma process_data_key_events
    (self : DataManager) (sensor_name : string) (message_data : gmap string number)
    (sensor_handled : bool) (r : DataKeyInfo) (w : list Event) :
  ∃ evs,
    (process_data_key self sensor_name message_data sensor_handled r w).1 = w ++ evs
    ∧ forallb rule_event evs = true.
Proof.
  unfold process_data_key, select_action.
  destruct (message_data !! data_key r) as [v|]; simpl.
  2: { exists []. by rewrite app_nil_r. }
  io_unfold.
  destruct (num_gt v (threshold r)); simpl.
  { destruct (above_action r) as [a|], (mqtt_client self) as [c|]; simpl;
      eexists; rewrite <- ?app_assoc; (split; [reflexivity|reflexivity]). }
  destruct (num_lt v (threshold r)); simpl.
  { destruct (below_action r) as [a|], (mqtt_client self) as [c|]; simpl;
      eexists; rewrite <- ?app_assoc; (split; [reflexivity|reflexivity]). }
  exists []. by rewrite app_nil_r.
Qed.

Lemma process_sensor_events
    (self : DataManager) (topic : string) (message_data : gmap string number)
    (sensor_handled : bool) (item : string * Entry) (w : list Event) :
  ∃ evs,
    (process_sensor self topic message_data sensor_handled item w).1 = w ++ evs
    ∧ forallb rule_event evs = true.
Proof.
  destruct item as [name e]. unfold process_sensor.
  destruct (String.eqb name "device_control_topics").
  { exists []. by rewrite app_nil_r. }
  destruct (bool_decide (get_data_topic e = Some topic)).
  - apply for_each_events. intros s x w'. apply process_data_key_events.
  - exists []. by rewrite app_nil_r.
Qed.

(** X5.  With a client, a reading whose values are numbers and that has a
    field of a matched rule is never reported as an unknown sensor topic:
    [process_sensor_data] returns, and all it adds to the trace are
    publications and announcements of a value above or below a threshold. *)
Theorem handled_reading_is_not_unknown_topic
    (self : DataManager) (client : MqttClient) (topic : string)
    (message_data : gmap string number) (w : list Event) :
  mqtt_client self = Some client →
  existsb (field_present message_data) (matched_rules SENSOR_ACTIONS topic) = true →
  ∃ evs,
    process_sensor_data self topic message_data w = (w ++ evs, inr tt)
    ∧ forallb rule_event evs = true
    ∧ Print ("Unknown sensor topic: " +:+ topic) ∉ evs.
Proof.
  intros Hclient Hpresent. unfold process_sensor_data.
  destruct (for_each_sensors_run self topic message_data SENSOR_ACTIONS false w)
    as (w1 & Hloop & _).
  rewrite Hclient, Hpresent in Hloop. change (false || true) with true in Hloop.
  destruct (for_each_events (process_sensor self topic message_data) rule_event
              (process_sensor_events self topic message_data) SENSOR_ACTIONS false w)
    as (evs & Hw1 & Hevs).
  rewrite Hloop in Hw1. cbn [fst] in Hw1. subst w1.
  unfold mbind, IO_bind, io_bind. rewrite Hloop. cbn [negb].
  exists evs. split; [done|]. split; [done|].
  intros Hin. apply list_elem_of_In in Hin.
  pose proof (proj1 (forallb_forall _ _) Hevs _ Hin) as Hline.
  simpl in Hline. done.
Qed.

Lemma handled_reading_is_not_unknown_topic_witness :
  mqtt_client greenhouse = Some broker
  ∧ existsb (field_present (reading [("Temperature", num 20)]))
      (matched_rules SENSOR_ACTIONS "/RG_7557_GreenHouse/Sensors/DHT/Data") = true
  ∧ ∃ evs,
      process_sensor_data greenhouse "/RG_7557_GreenHouse/Sensors/DHT/Data"
        (reading [("Temperature", num 20)]) []
      = ([] ++ evs, inr tt)
      ∧ forallb rule_event evs = true
      ∧ Print ("Unknown sensor topic: " +:+ "/RG_7557_GreenHouse/Sensors/DHT/Data") ∉ evs.
Proof.
  split; [reflexivity|]. split; [reflexivity|].
  apply (handled_reading_is_not_unknown_topic greenhouse broker
           "/RG_7557_GreenHouse/Sensors/DHT/Data" (reading [("Temperature", num 20)]) []);
    reflexivity.
Defined.

(** ** Payloads *)

Lemma string_forallb_app (f : ascii → bool) (s1 s2 : string) :
  string_forallb f (s1 +:+ s2) = string_forallb f s1 && string_forallb f s2.
Proof. induction s1 as [|c s1 IH]; simpl; [done|]. by rewrite IH, andb_assoc. Qed.

Lemma json_escape_char_printable (c : ascii) :
  string_forallb printable (json_escape_char c) = true.
Proof. destruct c as [[] [] [] [] [] [] [] []]; reflexivity. Qed.

Lemma json_str_printable (s : string) : string_forallb printable (json_str s) = true.
Proof.
  unfold json_str. simpl. rewrite string_forallb_app. simpl. rewrite andb_true_r.
  induction s as [|c s IH]; simpl; [done|].
  by rewrite string_forallb_app, json_escape_char_printable, IH.
Qed.

(** X16.  Whatever characters the keys and the values hold (a command with quotes,
    backslashes, line ends or bytes above 127), the text [json.dumps] makes
    of them has printable ASCII characters only. *)
Theorem json_dumps_is_printable_ascii (kvs : list (string * string)) :
  string_forallb printable (json_dumps kvs) = true.
Proof.
  unfold json_dumps. simpl. rewrite !string_forallb_app. simpl. rewrite ?andb_true_r.
  induction kvs as [|[k v] kvs IH]; [done|].
  assert (string_forallb printable (json_str k +:+ ": " +:+ json_str v) = true) as Hkv.
  { rewrite !string_forallb_app, !json_str_printable. done. }
  destruct kvs as [|kv kvs]; [exact Hkv|].
  change (json_items ((k, v) :: kv :: kvs))
    with (json_str k +:+ ": " +:+ json_str v +:+ ", " +:+ json_items (kv :: kvs)).
  rewrite !string_forallb_app, !json_str_printable, IH. done.
Qed.

Lemma process_sensor_data_published_witness :
  mqtt_client greenhouse = Some broker
  ∧ ∃ w',
      process_sensor_data greenhouse "/RG_7557_GreenHouse/Sensors/Moisture/Data"
        (reading [("Moisture", num 12)]) []
      = (w', inr tt)
      ∧ published w'
        = published []
          ++ omap (rule_emission (reading [("Moisture", num 12)]))
               (matched_rules SENSOR_ACTIONS "/RG_7557_GreenHouse/Sensors/Moisture/Data").
Proof.
  split; [reflexivity|].
  apply (process_sensor_data_published greenhouse broker
           "/RG_7557_GreenHouse/Sensors/Moisture/Data" (reading [("Moisture", num 12)]) []).
  reflexivity.
Defined.

(** The empty name stands for a temporary database, private to each
    connection like [":memory:"]: the thread does not find the table
    either. *)
Example empty_name_has_no_table :
  messages (conn (__init__ ∅ (OnDisk EmptyString) None).2) = Some []
  ∧ outcome (_db_thread_func steady (__init__ ∅ (OnDisk EmptyString) None).1
               (__init__ ∅ (OnDisk EmptyString) None).2 [GetMessages 0])
    = Raised (OperationalError "no such table: messages") [].
Proof. split; reflexivity. Qed.
